(** * simple_reproductor: the playlist player of [reproductor.py]

    A shallow embedding of the parts of [reproductor.py] that carry behaviour:
    [format_time], [scan_playlists], the configuration dictionary and the
    transport methods of [MusicMinimalPlayer] with the end-of-track watcher.
    Widget construction and styling are left out; of the widgets only the
    texts and the window flags that the methods below set are kept.

    Conventions.
    - Python [int] is [Z]; [//] and [%] with a positive divisor are [Z.div]
      and [Z.modulo] (both round towards minus infinity, like Python).
    - Python [str] is [string], holding the UTF-8 bytes of the text: the
      order of the bytes is the order of the character codes, by which
      Python compares strings. [os.path] is [posixpath].
    - [str.lower] is part of the platform that [scan_playlists] runs on,
      [str_lower]: the properties of the scan hold for whatever case
      mapping the interpreter implements. [PyStr.lower] is that mapping on
      ASCII text, and serves in the sample worlds, whose names are ASCII.
    - [self.config] is a dictionary from key to JSON value: a [gmap].
    - The catalog returned by [scan_playlists] is a dictionary whose
      insertion order is observable: an association list.
    - Methods run in a state-and-exception monad over the object and the
      world it acts on: the file system, the configuration file, the lines
      printed, the calls made on the media engine and the threads started.
      The engine is a black box that answers each call, or raises, as a
      function of all the calls made so far. *)

From Stdlib Require Import ZArith Lia List Permutation Sorted Ascii String.
From stdpp Require Import base gmap strings list sorting.

Local Open Scope Z_scope.

(* ===================================================================== *)
(** * Python strings *)
(* ===================================================================== *)

Module PyStr.

(** [c.lower()] on one ASCII character. *)
Definition lower_ascii (c : ascii) : ascii :=
  let n := nat_of_ascii c in
  if ((65 <=? n) && (n <=? 90))%nat then ascii_of_nat (n + 32) else c.

(** [s.lower()] for ASCII [s]: [A]..[Z] go to [a]..[z], every other
    character stays. *)
Fixpoint lower (s : string) : string :=
  match s with
  | EmptyString => EmptyString
  | String c s' => String (lower_ascii c) (lower s')
  end.

(** [s.startswith(p)]. *)
Definition startswith (s p : string) : bool := String.prefix p s.

(** [s.endswith(p)]: [p] is the suffix of [s] of its own length. *)
Definition endswith (s p : string) : bool :=
  let ls := String.length s in
  let lp := String.length p in
  ((lp <=? ls)%nat && String.eqb (String.substring (ls - lp) lp s) p)%bool.

(** [s.endswith((p1, p2, ...))]: any of a tuple of suffixes. *)
Definition endswith_any (s : string) (ps : list string) : bool :=
  existsb (endswith s) ps.

(** [os.path.join(a, b)] of [posixpath]. *)
Definition path_join (a b : string) : string :=
  if startswith b "/" then b
  else if (String.eqb a "" || endswith a "/")%bool then a +:+ b
  else a +:+ "/" +:+ b.

(** The part of [s] after its last ["/"], scanning with the component
    read so far in [cur]. *)
Fixpoint after_last_slash (s cur : string) : string :=
  match s with
  | EmptyString => cur
  | String c s' =>
      if Ascii.eqb c "/"%char then after_last_slash s' EmptyString
      else after_last_slash s' (cur +:+ String c EmptyString)
  end.

(** [os.path.basename(p)] of [posixpath]: [p[p.rfind('/') + 1:]]. *)
Definition basename (p : string) : string := after_last_slash p EmptyString.

End PyStr.

(* ===================================================================== *)
(** * Formatting integers: [f"{n:02d}"] *)
(* ===================================================================== *)

Module PyFormat.

Definition digit_char (d : Z) : ascii := ascii_of_nat (48 + Z.to_nat d).

(** Decimal digits of [n >= 0], most significant first, prepended to
    [acc]; [fuel] bounds the number of digits written. *)
Fixpoint digits_fuel (fuel : nat) (n : Z) (acc : string) : string :=
  match fuel with
  | O => acc
  | S fuel' =>
      let acc' := String (digit_char (n mod 10)) acc in
      if n / 10 =? 0 then acc' else digits_fuel fuel' (n / 10) acc'
  end.

(** [str(n)] for [n >= 0]. A number below [2 ^ (k + 1)] has at most
    [k + 1] decimal digits. *)
Definition str_nonneg (n : Z) : string :=
  digits_fuel (S (Z.to_nat (Z.log2 n))) n EmptyString.

Fixpoint zeros (k : nat) : string :=
  match k with
  | O => EmptyString
  | S k' => String "0"%char (zeros k')
  end.

(** [format(n, "02d")]: the sign, then zeros up to a total width of two,
    then the digits of the absolute value. *)
Definition format_02d (n : Z) : string :=
  let sign := if n <? 0 then "-" else "" in
  let ds := str_nonneg (Z.abs n) in
  sign +:+ zeros (2 - String.length sign - String.length ds) +:+ ds.

(** The reading of a decimal numeral, for stating what a rendered field
    denotes. *)
Definition digit_val (c : ascii) : option Z :=
  let n := Z.of_nat (nat_of_ascii c) in
  if (48 <=? n) && (n <=? 57) then Some (n - 48) else None.

Fixpoint parse_from (acc : Z) (s : string) : option Z :=
  match s with
  | EmptyString => Some acc
  | String c s' =>
      match digit_val c with
      | Some d => parse_from (acc * 10 + d) s'
      | None => None
      end
  end.

Definition parse_dec (s : string) : option Z :=
  match s with
  | EmptyString => None
  | _ => parse_from 0 s
  end.

End PyFormat.

(** [MusicMinimalPlayer.format_time]; it does not read [self]. *)
Definition format_time (milliseconds : Z) : string :=
  let total_seconds := milliseconds / 1000 in
  let minutes := total_seconds / 60 in
  let seconds := total_seconds mod 60 in
  PyFormat.format_02d minutes +:+ ":" +:+ PyFormat.format_02d seconds.

(* ===================================================================== *)
(** * Python values, exceptions and results *)
(* ===================================================================== *)

(** The JSON values a configuration entry holds. *)
Inductive PyVal :=
| VNone
| VBool (b : bool)
| VInt (n : Z)
| VStr (s : string).

(** Truth value of an object, as tested by [if v] and [a if v else b]. *)
Definition truthy (v : PyVal) : bool :=
  match v with
  | VNone => false
  | VBool b => b
  | VInt n => negb (n =? 0)
  | VStr s => negb (String.eqb s "")
  end.

(** The exceptions that occur; all of them derive from [Exception]. *)
Inductive Exn :=
| KeyError (key : string)
| AttributeError (attr : string)
| TypeError (msg : string)
| IndexError (msg : string)
| OSError (msg : string)
| EngineError (msg : string).

(** [str(e)], as interpolated by [f"...{e}"]. *)
Definition exn_str (e : Exn) : string :=
  match e with
  | KeyError k => "'" +:+ k +:+ "'"
  | AttributeError a => "'MusicMinimalPlayer' object has no attribute '" +:+ a +:+ "'"
  | TypeError m => m
  | IndexError m => m
  | OSError m => m
  | EngineError m => m
  end.

(** A call either returns or raises. *)
Inductive PyResult (A : Type) :=
| Ok (a : A)
| Err (e : Exn).
Arguments Ok {A} a.
Arguments Err {A} e.

Definition res_bind {A B} (r : PyResult A) (k : A -> PyResult B) : PyResult B :=
  match r with
  | Ok a => k a
  | Err e => Err e
  end.

(** [len(l)]. *)
Definition len {A} (l : list A) : Z := Z.of_nat (List.length l).

(** [not l], for a list. *)
Definition is_empty {A} (l : list A) : bool :=
  match l with
  | [] => true
  | _ :: _ => false
  end.

(* ===================================================================== *)
(** * [sorted] *)
(* ===================================================================== *)

Module PySort.

(** [sorted(l, key=key)] is stable: elements with equal keys keep their
    order.  Insertion from the right, each element placed before the
    first one whose key is not smaller, computes that permutation. *)
Fixpoint insert_by {A} (key : A -> string) (x : A) (l : list A) : list A :=
  match l with
  | [] => [x]
  | y :: l' =>
      if String.ltb (key y) (key x) then y :: insert_by key x l'
      else x :: l
  end.

Definition sorted_by {A} (key : A -> string) (l : list A) : list A :=
  fold_right (insert_by key) [] l.

(** [sorted(l)] on strings. *)
Definition sorted (l : list string) : list string := sorted_by (fun s => s) l.

End PySort.

(* ===================================================================== *)
(** * The catalog: [scan_playlists] *)
(* ===================================================================== *)

(** What [scan_playlists] asks of the platform it runs on: of the
    operating system, [os.path.isdir] and [os.listdir], and of the
    interpreter, [str.lower]. [listdir] raises [OSError] on a directory
    that cannot be read (and on what is not a directory); the names it
    returns come in no particular order. [str_lower] is the case mapping of
    the interpreter, whatever it does to each character. *)
Record FileSystem := {
  isdir : string -> bool;
  listdir : string -> PyResult (list string);
  str_lower : string -> string
}.

(** A [dict] from playlist name to track paths, in insertion order. *)
Definition Catalog := list (string * list string).

Module Dict.

(** [d[k] = v]: replaces the value of a key already present, where it
    stands; a new key goes last. *)
Fixpoint set (d : Catalog) (k : string) (v : list string) : Catalog :=
  match d with
  | [] => [(k, v)]
  | (k', v') :: d' =>
      if String.eqb k' k then (k, v) :: d' else (k', v') :: set d' k v
  end.

(** [d.get(k, [])]. *)
Fixpoint get (d : Catalog) (k : string) : list string :=
  match d with
  | [] => []
  | (k', v') :: d' => if String.eqb k' k then v' else get d' k
  end.

(** [d.keys()]. *)
Definition keys (d : Catalog) : list string := map fst d.

End Dict.

Definition audio_extensions : list string :=
  [".mp3"; ".wav"; ".flac"; ".aac"; ".m4a"; ".ogg"].

(** The inner loop of [scan_playlists]: the audio files among [names],
    each joined to its directory, in the order of [names]. *)
Fixpoint collect_audio (lower : string -> string) (dir : string)
    (names : list string) (files : list string) : list string :=
  match names with
  | [] => files
  | f :: names' =>
      if PyStr.endswith_any (lower f) audio_extensions
      then collect_audio lower dir names' (files ++ [PyStr.path_join dir f])
      else collect_audio lower dir names' files
  end.

(** The first loop of [scan_playlists] over the sorted entries of the root. *)
Fixpoint scan_top (fs : FileSystem) (root : string) (entries : list string)
    (playlists : Catalog) : PyResult Catalog :=
  match entries with
  | [] => Ok playlists
  | entry :: entries' =>
      let entry_path := PyStr.path_join root entry in
      if isdir fs entry_path then
        res_bind (listdir fs entry_path) (fun names =>
          let files := collect_audio (str_lower fs) entry_path names [] in
          if is_empty files then scan_top fs root entries' playlists
          else scan_top fs root entries'
                 (Dict.set playlists entry (PySort.sorted_by (str_lower fs) files)))
      else scan_top fs root entries' playlists
  end.

(** The loop over the sub-entries of one entry, in the second pass. *)
Fixpoint scan_sub (fs : FileSystem) (entry entry_path : string)
    (sub_entries : list string) (playlists : Catalog) : PyResult Catalog :=
  match sub_entries with
  | [] => Ok playlists
  | sub_entry :: subs' =>
      let sub_path := PyStr.path_join entry_path sub_entry in
      if isdir fs sub_path then
        res_bind (listdir fs sub_path) (fun names =>
          let files := collect_audio (str_lower fs) sub_path names [] in
          if is_empty files then scan_sub fs entry entry_path subs' playlists
          else
            let key := entry +:+ "/" +:+ sub_entry in
            scan_sub fs entry entry_path subs'
              (Dict.set playlists key (PySort.sorted_by (str_lower fs) files)))
      else scan_sub fs entry entry_path subs' playlists
  end.

(** The second loop of [scan_playlists]. *)
Fixpoint scan_nested (fs : FileSystem) (root : string) (entries : list string)
    (playlists : Catalog) : PyResult Catalog :=
  match entries with
  | [] => Ok playlists
  | entry :: entries' =>
      let entry_path := PyStr.path_join root entry in
      if isdir fs entry_path then
        res_bind (listdir fs entry_path) (fun sub_entries =>
          res_bind (scan_sub fs entry entry_path (PySort.sorted sub_entries) playlists)
            (fun playlists' => scan_nested fs root entries' playlists'))
      else scan_nested fs root entries' playlists
  end.

Definition scan_playlists (fs : FileSystem) (root : string) : PyResult Catalog :=
  if negb (isdir fs root) then Ok []
  else
    res_bind (listdir fs root) (fun entries =>
      res_bind (scan_top fs root (PySort.sorted entries) []) (fun playlists =>
        res_bind (listdir fs root) (fun entries2 =>
          scan_nested fs root (PySort.sorted entries2) playlists))).

(* ===================================================================== *)
(** * The media engine *)
(* ===================================================================== *)

(** [vlc.State]. *)
Inductive VlcState :=
| NothingSpecial | Opening | Buffering | Playing | Paused | Stopped | Ended | Error.

Definition VlcState_eqb (a b : VlcState) : bool :=
  match a, b with
  | NothingSpecial, NothingSpecial | Opening, Opening | Buffering, Buffering
  | Playing, Playing | Paused, Paused | Stopped, Stopped | Ended, Ended
  | Error, Error => true
  | _, _ => false
  end.

(** The calls the player makes on [self.instance], on the media object it
    obtains and on [self.player]. *)
Inductive EngineCmd :=
| MediaNew (path : string)         (* self.instance.media_new(path) *)
| MediaParse                       (* media.parse() *)
| MediaGetMetaTitle                (* media.get_meta(vlc.Meta.Title) *)
| SetMedia (path : string)         (* self.player.set_media(media) *)
| Play                             (* self.player.play() *)
| Pause                            (* self.player.pause() *)
| AudioSetVolume (v : PyVal)       (* self.player.audio_set_volume(v) *)
| IsPlaying                        (* self.player.is_playing() *)
| GetState                         (* self.player.get_state() *)
| GetTime.                         (* self.player.get_time() *)

(** What each call returns. *)
Definition Answer (c : EngineCmd) : Type :=
  match c with
  | MediaGetMetaTitle => option string
  | IsPlaying => bool
  | GetState => VlcState
  | GetTime => Z
  | _ => unit
  end.

(** The engine is a black box: what it answers to a call, or that the call
    raises, may depend on every call made before. *)
Definition Engine := list EngineCmd -> forall c : EngineCmd, PyResult (Answer c).

(* ===================================================================== *)
(** * The player object and the world it acts on *)
(* ===================================================================== *)

(** [self.current_playlist_name]: not assigned yet, [None], or a name. *)
Inductive NameAttr :=
| Unset
| NameNone
| Name (s : string).

(** The text of the play button. *)
Inductive Glyph := GlyphPlay | GlyphPause.

Inductive Thread := MonitorPlayer | MonitorTime | NextSong.

(** The content of [config.json], by what
    [config.update(json.load(f))] takes from it.
    - [NoFile]: there is no file.
    - [BadFile]: nothing is taken: the file cannot be opened or is not
      JSON, or it is a JSON value on which [update] raises before it has
      stored any entry.
    - [JsonFile m]: the entries [m] are taken: the file is the JSON object
      [m], or a JSON array that starts with the pairs of [m], which
      [update] stores one by one until it raises on the first element that
      is not a pair; the exception is swallowed and what was stored stays. *)
Inductive ConfigFile :=
| NoFile
| BadFile
| JsonFile (m : gmap string PyVal).

(** How writing [config.json] fails. [open(config_path, "w")] raises and
    the file stays as it was; or the file is opened, which empties it, and
    [json.dump] or the closing of the file raises, which leaves an empty
    or cut-off file, one that is not JSON. *)
Inductive WriteError :=
| OpenFails (msg : string)
| DumpFails (msg : string).

Record World := MkWorld {
  (* attributes of the player object *)
  config : gmap string PyVal;
  playlists : Catalog;
  playlist_names : list string;
  current_playlist_name : NameAttr;
  current_playlist_files : list string;
  current_index : Z;
  has_engine : bool;                (* [vlc] imported: instance and player are not None *)
  player_monitor_running : bool;
  time_monitor_running : bool;
  (* widgets *)
  song_label : string;
  time_label : string;
  play_btn : Glyph;
  topmost : bool;
  lifts : nat;                      (* calls of [self.root.lift()] *)
  (* the world outside *)
  fs : FileSystem;
  music_root : string;              (* what [get_music_root()] returns *)
  config_file : ConfigFile;
  disk_error : option WriteError;   (* how writing [config.json] fails, if it does *)
  stdout : list string;             (* lines printed *)
  engine : Engine;
  engine_calls : list EngineCmd;    (* calls made on the engine, oldest first *)
  threads : list Thread             (* threads started, oldest first *)
}.

Definition set_config v w :=
  let 'MkWorld a b c d e f g h i j k l m n o p q r s t u x := w in
  MkWorld v b c d e f g h i j k l m n o p q r s t u x.
Definition set_playlists v w :=
  let 'MkWorld a b c d e f g h i j k l m n o p q r s t u x := w in
  MkWorld a v c d e f g h i j k l m n o p q r s t u x.
Definition set_playlist_names v w :=
  let 'MkWorld a b c d e f g h i j k l m n o p q r s t u x := w in
  MkWorld a b v d e f g h i j k l m n o p q r s t u x.
Definition set_current_playlist_name v w :=
  let 'MkWorld a b c d e f g h i j k l m n o p q r s t u x := w in
  MkWorld a b c v e f g h i j k l m n o p q r s t u x.
Definition set_current_playlist_files v w :=
  let 'MkWorld a b c d e f g h i j k l m n o p q r s t u x := w in
  MkWorld a b c d v f g h i j k l m n o p q r s t u x.
Definition set_current_index v w :=
  let 'MkWorld a b c d e f g h i j k l m n o p q r s t u x := w in
  MkWorld a b c d e v g h i j k l m n o p q r s t u x.
Definition set_player_monitor_running v w :=
  let 'MkWorld a b c d e f g h i j k l m n o p q r s t u x := w in
  MkWorld a b c d e f g v i j k l m n o p q r s t u x.
Definition set_time_monitor_running v w :=
  let 'MkWorld a b c d e f g h i j k l m n o p q r s t u x := w in
  MkWorld a b c d e f g h v j k l m n o p q r s t u x.
Definition set_song_label v w :=
  let 'MkWorld a b c d e f g h i j k l m n o p q r s t u x := w in
  MkWorld a b c d e f g h i v k l m n o p q r s t u x.
Definition set_time_label v w :=
  let 'MkWorld a b c d e f g h i j k l m n o p q r s t u x := w in
  MkWorld a b c d e f g h i j v l m n o p q r s t u x.
Definition set_play_btn v w :=
  let 'MkWorld a b c d e f g h i j k l m n o p q r s t u x := w in
  MkWorld a b c d e f g h i j k v m n o p q r s t u x.
Definition set_topmost v w :=
  let 'MkWorld a b c d e f g h i j k l m n o p q r s t u x := w in
  MkWorld a b c d e f g h i j k l v n o p q r s t u x.
Definition set_lifts v w :=
  let 'MkWorld a b c d e f g h i j k l m n o p q r s t u x := w in
  MkWorld a b c d e f g h i j k l m v o p q r s t u x.
Definition set_config_file v w :=
  let 'MkWorld a b c d e f g h i j k l m n o p q r s t u x := w in
  MkWorld a b c d e f g h i j k l m n o p v r s t u x.
Definition set_stdout v w :=
  let 'MkWorld a b c d e f g h i j k l m n o p q r s t u x := w in
  MkWorld a b c d e f g h i j k l m n o p q r v t u x.
Definition set_engine_calls v w :=
  let 'MkWorld a b c d e f g h i j k l m n o p q r s t u x := w in
  MkWorld a b c d e f g h i j k l m n o p q r s t v x.
Definition set_threads v w :=
  let 'MkWorld a b c d e f g h i j k l m n o p q r s t u x := w in
  MkWorld a b c d e f g h i j k l m n o p q r s t u v.

(* ===================================================================== *)
(** * Methods: state and exceptions *)
(* ===================================================================== *)

(** A method call ends by returning a value or by raising; either way it
    leaves a world behind. *)
Inductive Outcome (A : Type) :=
| Done (a : A) (w : World)
| Raised (e : Exn) (w : World).
Arguments Done {A} a w.
Arguments Raised {A} e w.

Definition M (A : Type) : Type := World -> Outcome A.

Definition ret {A} (a : A) : M A := fun w => Done a w.

Definition bind {A B} (m : M A) (k : A -> M B) : M B :=
  fun w =>
    match m w with
    | Done a w' => k a w'
    | Raised e w' => Raised e w'
    end.

Declare Scope py_scope.
Delimit Scope py_scope with py.
Notation "'let*' x ':=' m 'in' k" := (bind m (fun x => k))
  (at level 10, x name, m at level 100, k at level 200) : py_scope.
Notation "m ';;' k" := (bind m (fun _ => k))
  (at level 100, k at level 200, right associativity) : py_scope.
Local Open Scope py_scope.

Definition raise {A} (e : Exn) : M A := fun w => Raised e w.

(** [try: body except Exception as e: handler(e)]. *)
Definition try_except {A} (body : M A) (handler : Exn -> M A) : M A :=
  fun w =>
    match body w with
    | Done a w' => Done a w'
    | Raised e w' => handler e w'
    end.

Definition gets {A} (f : World -> A) : M A := fun w => Done (f w) w.
Definition modify (f : World -> World) : M unit := fun w => Done tt (f w).

(** A call that returns or raises without touching the world. *)
Definition lift_result {A} (r : PyResult A) : M A :=
  fun w => match r with Ok a => Done a w | Err e => Raised e w end.

(** [print(line)]. *)
Definition print (line : string) : M unit :=
  modify (fun w => set_stdout (stdout w ++ [line]) w).

(** [time.sleep(seconds)]: time is not part of the world. *)
Definition sleep (milliseconds : Z) : M unit := ret tt.

(** [threading.Thread(target=t, daemon=True).start()]: the thread is
    recorded as started; what it does is a later call of its target. *)
Definition start_thread (t : Thread) : M unit :=
  modify (fun w => set_threads (threads w ++ [t]) w).

(** A call on the engine: it is recorded, and returns or raises as the
    engine decides from the calls made so far. *)
Definition engine_call (c : EngineCmd) : M (Answer c) :=
  fun w =>
    let w' := set_engine_calls (engine_calls w ++ [c]) w in
    match engine w (engine_calls w) c with
    | Ok a => Done a w'
    | Err e => Raised e w'
    end.

(** [self.config[key]]. *)
Definition config_getitem (key : string) : M PyVal :=
  fun w =>
    match config w !! key with
    | Some v => Done v w
    | None => Raised (KeyError key) w
    end.

(** [self.config.get(key, dflt)]. *)
Definition config_get (key : string) (dflt : PyVal) : M PyVal :=
  gets (fun w => default dflt (config w !! key)).

(** [self.config[key] = v]. *)
Definition config_setitem (key : string) (v : PyVal) : M unit :=
  modify (fun w => set_config (<[key := v]> (config w)) w).

(** [l[i]] for [0 <= i]; a negative [i] counts from the end. *)
Definition list_getitem (l : list string) (i : Z) : M string :=
  let j := if i <? 0 then i + len l else i in
  if j <? 0 then raise (IndexError "list index out of range")
  else
    match l !! Z.to_nat j with
    | Some x => ret x
    | None => raise (IndexError "list index out of range")
    end.

(* ===================================================================== *)
(** * Configuration: [load_config], [save_config] *)
(* ===================================================================== *)

Definition default_config : gmap string PyVal :=
  list_to_map
    [ ("volume", VInt 80); ("shuffle", VBool true); ("pinned", VBool true);
      ("x", VInt 100); ("y", VInt 100); ("width", VInt 600); ("height", VInt 40);
      ("bg_color", VStr "#000000"); ("btn_color", VStr "#333333");
      ("font_color", VStr "#FFFFFF"); ("playlist", VStr "");
      ("song_index", VInt 0); ("show_titlebar", VBool true);
      ("opacity", VInt 100); ("resizable", VBool true) ].

(** [load_config()]: the defaults, updated with the entries that
    [config.update(json.load(f))] takes from the file, when there is one;
    whatever is raised on the way is swallowed. *)
Definition load_config : M (gmap string PyVal) :=
  gets (fun w =>
    match config_file w with
    | JsonFile m => m ∪ default_config
    | BadFile | NoFile => default_config
    end).

(** [save_config(config)]: a failed write is printed, not raised. The
    file is opened for writing inside the [try], so a failure after the
    opening leaves a file that does not load. *)
Definition save_config (cfg : gmap string PyVal) : M unit :=
  fun w =>
    match disk_error w with
    | None => Done tt (set_config_file (JsonFile cfg) w)
    | Some (OpenFails msg) => print ("Failed to save config: " +:+ msg) w
    | Some (DumpFails msg) =>
        print ("Failed to save config: " +:+ msg) (set_config_file BadFile w)
    end.

(** [save_config(self.config)]. *)
Definition save_self_config : M unit :=
  let* cfg := gets config in save_config cfg.

(* ===================================================================== *)
(** * [MusicMinimalPlayer] *)
(* ===================================================================== *)

(** The body of the [try] in [play_song_at_index]; it returns the title
    to show. *)
Definition engine_load_and_play (file_path title : string) : M string :=
  engine_call (MediaNew file_path);;
  engine_call MediaParse;;
  let* t := engine_call MediaGetMetaTitle in
  let title :=
    match t with
    | Some s => if String.eqb s "" then title else s
    | None => title
    end in
  engine_call (SetMedia file_path);;
  engine_call Play;;
  let* volume := config_getitem "volume" in
  engine_call (AudioSetVolume volume);;
  ret title.

Definition play_song_at_index (idx : Z) : M unit :=
  let* files := gets current_playlist_files in
  if is_empty files then ret tt
  else if (idx <? 0) || (idx >=? len files) then ret tt
  else
    modify (set_current_index idx);;
    let* cur := gets current_index in
    let* file_path := list_getitem files cur in
    config_setitem "song_index" (VInt cur);;
    save_self_config;;
    let title := PyStr.basename file_path in
    let* present := gets has_engine in
    let* shown :=
      (if present then
         try_except
           (let* title := engine_load_and_play file_path title in ret (Some title))
           (fun e =>
              print ("Error playing " +:+ file_path +:+ ": " +:+ exn_str e);;
              ret None)
       else ret (Some title)) in
    match shown with
    | None => ret tt                         (* the [return] of the handler *)
    | Some title =>
        modify (set_song_label title);;
        modify (set_play_btn GlyphPause)
    end.

(** [self.playlists.get(self.current_playlist_name, [])]. *)
Definition lookup_current_playlist : M (list string) :=
  fun w =>
    match current_playlist_name w with
    | Unset => Raised (AttributeError "current_playlist_name") w
    | NameNone => Done [] w
    | Name s => Done (Dict.get (playlists w) s) w
    end.

Definition _load_current_playlist : M unit :=
  let* files := lookup_current_playlist in
  modify (set_current_playlist_files files);;
  if is_empty files then modify (set_song_label "No files in playlist")
  else
    let* cur := gets current_index in
    play_song_at_index cur.

Definition on_playlist_change (playlist_name : string) : M unit :=
  modify (set_current_playlist_name (Name playlist_name));;
  config_setitem "playlist" (VStr playlist_name);;
  save_self_config;;
  modify (set_current_index 0);;
  _load_current_playlist.

Definition on_shuffle_toggle : M unit :=
  let* v := config_get "shuffle" (VBool true) in
  config_setitem "shuffle" v;;
  save_self_config.

Definition toggle_pin : M unit :=
  let* v := config_get "pinned" (VBool true) in
  config_setitem "pinned" v;;
  let* p := config_getitem "pinned" in
  modify (set_topmost (truthy p));;
  let* p' := config_getitem "pinned" in
  (if truthy p' then modify (fun w => set_lifts (S (lifts w)) w) else ret tt);;
  save_self_config.

(** [random.randrange(n)] for [0 < n]: some integer of [[0, n)], here the
    one that the generator's raw output [draw] selects. *)
Definition randrange (draw n : Z) : Z := draw mod n.

Definition next_song (draw : Z) : M unit :=
  let* files := gets current_playlist_files in
  if is_empty files then ret tt
  else
    let* shuffle := config_getitem "shuffle" in
    (if truthy shuffle then modify (set_current_index (randrange draw (len files)))
     else
       let* cur := gets current_index in
       modify (set_current_index ((cur + 1) mod len files)));;
    let* cur := gets current_index in
    play_song_at_index cur.

Definition prev_song (draw : Z) : M unit :=
  let* files := gets current_playlist_files in
  if is_empty files then ret tt
  else
    let* shuffle := config_getitem "shuffle" in
    (if truthy shuffle then modify (set_current_index (randrange draw (len files)))
     else
       let* cur := gets current_index in
       modify (set_current_index ((cur - 1) mod len files)));;
    let* cur := gets current_index in
    play_song_at_index cur.

Definition check_song_ended : M unit :=
  try_except
    (let* present := gets has_engine in
     let* files := gets current_playlist_files in
     if present && negb (is_empty files) then
       let* state := engine_call GetState in
       if VlcState_eqb state Ended || VlcState_eqb state NothingSpecial
       then start_thread NextSong
       else ret tt
     else ret tt)
    (fun e => print ("Error checking song end: " +:+ exn_str e)).

(** [self.player is not None and self.player.is_playing()]: the engine is
    asked only when there is one. *)
Definition player_is_playing : M bool :=
  let* present := gets has_engine in
  if present then engine_call IsPlaying else ret false.

(** One turn of the [while] loop of [monitor_player]: one tick of the
    end-of-track watcher. *)
Definition monitor_player_tick : M unit :=
  try_except
    (let* playing := player_is_playing in
     if playing then sleep 500
     else
       sleep 500;;
       let* present := gets has_engine in
       if negb present then ret tt
       else
         let* playing' := engine_call IsPlaying in
         if playing' then ret tt
         else
           let* files := gets current_playlist_files in
           if is_empty files then ret tt else check_song_ended)
    (fun e => print ("Monitor error: " +:+ exn_str e);; sleep 1000).

(** Ticks of [monitor_player] while [self.player_monitor_running] holds,
    at most [n] of them. *)
Fixpoint monitor_player (n : nat) : M unit :=
  match n with
  | O => ret tt
  | S n' =>
      let* running := gets player_monitor_running in
      if running then monitor_player_tick;; monitor_player n' else ret tt
  end.

Definition update_time_display : M unit :=
  try_except
    (let* present := gets has_engine in
     if present then
       let* current_time := engine_call GetTime in
       let time_str := format_time current_time in
       modify (set_time_label time_str)
     else ret tt)
    (fun e => print ("Error updating time display: " +:+ exn_str e)).

(** One turn of the [while] loop of [monitor_time]. *)
Definition monitor_time_tick : M unit :=
  try_except
    (let* present := gets has_engine in
     let* files := gets current_playlist_files in
     (if present && negb (is_empty files) then update_time_display else ret tt);;
     sleep 1000)
    (fun e => print ("Time monitor error: " +:+ exn_str e);; sleep 1000).

Definition start_player_monitor : M unit :=
  let* present := gets has_engine in
  let* running := gets player_monitor_running in
  if negb present || running then ret tt
  else
    modify (set_player_monitor_running true);;
    start_thread MonitorPlayer.

Definition start_time_monitor : M unit :=
  let* present := gets has_engine in
  let* running := gets time_monitor_running in
  if negb present || running then ret tt
  else
    modify (set_time_monitor_running true);;
    start_thread MonitorTime.

(** The part of [setup_window] that the player's state shows: the window
    is kept on top, and raised, when the configuration pins it. *)
Definition setup_window : M unit :=
  let* p := config_getitem "pinned" in
  modify (set_topmost (truthy p));;
  let* p' := config_getitem "pinned" in
  if truthy p' then modify (fun w => set_lifts (S (lifts w)) w) else ret tt.

(** The part of [build_ui] that the player's state shows: the texts the
    widgets are created with. *)
Definition build_ui : M unit :=
  modify (set_play_btn GlyphPlay);;
  modify (set_song_label "No song playing");;
  modify (set_time_label "00:00").

(** An integer read in a comparison with [len(...)]: a [bool] is an [int];
    comparing [None] or a [str] with an [int] raises [TypeError]. *)
Definition as_int (v : PyVal) : M Z :=
  match v with
  | VInt n => ret n
  | VBool b => ret (Z.b2z b)
  | VNone => raise (TypeError "'>=' not supported between instances of 'NoneType' and 'int'")
  | VStr _ => raise (TypeError "'>=' not supported between instances of 'str' and 'int'")
  end.

(** [MusicMinimalPlayer.__init__]. *)
Definition __init__ : M unit :=
  let* cfg := load_config in
  modify (set_config cfg);;
  let* root := gets music_root in
  let* fsys := gets fs in
  let* found := lift_result (scan_playlists fsys root) in
  modify (set_playlists found);;
  modify (set_playlist_names (PySort.sorted (Dict.keys found)));;
  modify (set_current_playlist_files []);;
  let* names := gets playlist_names in
  (match names with
   | [] => ret tt
   | first :: _ =>
       let* saved_playlist := config_get "playlist" (VStr "") in
       (match saved_playlist with
        | VStr s =>
            if existsb (String.eqb s) names       (* saved_playlist in names *)
            then modify (set_current_playlist_name (Name s))
            else modify (set_current_playlist_name (Name first))
        | _ => modify (set_current_playlist_name (Name first))
        end);;
       let* files := lookup_current_playlist in
       modify (set_current_playlist_files files)
   end);;
  let* saved_index := config_get "song_index" (VInt 0) in
  let* idx := as_int saved_index in
  modify (set_current_index idx);;
  let* files := gets current_playlist_files in
  (if idx >=? len files then modify (set_current_index 0) else ret tt);;
  modify (set_player_monitor_running false);;
  modify (set_time_monitor_running false);;
  setup_window;;
  build_ui;;
  _load_current_playlist;;
  start_player_monitor;;
  start_time_monitor.

(** The world in which the program starts: nothing printed, no call made
    on the engine, no thread started, no attribute assigned. *)
Definition boot (fsys : FileSystem) (root : string) (file : ConfigFile)
    (err : option WriteError) (vlc : bool) (eng : Engine) : World :=
  {| config := ∅; playlists := []; playlist_names := [];
     current_playlist_name := Unset; current_playlist_files := [];
     current_index := 0; has_engine := vlc;
     player_monitor_running := false; time_monitor_running := false;
     song_label := ""; time_label := ""; play_btn := GlyphPlay;
     topmost := false; lifts := 0;
     fs := fsys; music_root := root; config_file := file; disk_error := err;
     stdout := []; engine := eng; engine_calls := []; threads := [] |}.

(* ===================================================================== *)
(** * Vocabulary of the properties *)
(* ===================================================================== *)

(** Unfolds the monad's operations and the world's accessors. *)
Ltac py_unfold :=
  cbv beta iota delta
    [bind ret raise gets modify try_except print sleep start_thread lift_result
     config_getitem config_get config_setitem save_self_config save_config
     engine_call].
Ltac py_world :=
  cbn [config playlists playlist_names current_playlist_name
       current_playlist_files current_index has_engine player_monitor_running
       time_monitor_running song_label time_label play_btn topmost lifts fs
       music_root config_file disk_error stdout engine engine_calls threads
       set_config set_playlists set_playlist_names set_current_playlist_name
       set_current_playlist_files set_current_index set_player_monitor_running
       set_time_monitor_running set_song_label set_time_label set_play_btn
       set_topmost set_lifts set_config_file set_stdout set_engine_calls
       set_threads negb andb orb is_empty] in *.
Ltac py_run := py_unfold; py_world.

(** A branch of a computation that ends by raising cannot have returned. *)
Ltac init_raised := py_run; let H := fresh "Hraised" in intros ? H; discriminate H.

(** The calls of one successful load-and-play. *)
Definition play_script (file_path : string) (volume : PyVal) : list EngineCmd :=
  [MediaNew file_path; MediaParse; MediaGetMetaTitle; SetMedia file_path; Play;
   AudioSetVolume volume].




(** The world a call leaves behind, and whether the call returned. *)
Definition world_of {A} (o : Outcome A) : World :=
  match o with
  | Done _ w => w
  | Raised _ w => w
  end.

Definition returned {A} (o : Outcome A) : bool :=
  match o with
  | Done _ _ => true
  | Raised _ _ => false
  end.

(** ** Sample worlds *)

(** A music directory [/m] with the folder [B] (two tracks and a text
    file), the folder [a] (one track) and, inside [a], the folder [live]
    (one track). *)
Definition sample_fs : FileSystem :=
  {| isdir p :=
       String.eqb p "/m" || String.eqb p "/m/B" || String.eqb p "/m/a"
       || String.eqb p "/m/a/live";
     listdir p :=
       if String.eqb p "/m" then Ok ["a"; "B"]
       else if String.eqb p "/m/B" then Ok ["B.mp3"; "notes.txt"; "a.MP3"]
       else if String.eqb p "/m/a" then Ok ["live"; "c.ogg"]
       else if String.eqb p "/m/a/live" then Ok ["x.flac"]
       else Err (OSError "Not a directory");
     str_lower := PyStr.lower |}.

(** A music directory that exists and cannot be read. *)
Definition locked_fs : FileSystem :=
  {| isdir p := String.eqb p "/m";
     listdir p := Err (OSError "Permission denied");
     str_lower := PyStr.lower |}.

(** An engine that cannot open any file; its other calls return. *)
Definition broken_engine : Engine :=
  fun _ c =>
    match c return PyResult (Answer c) with
    | MediaNew _ => Err (EngineError "cannot open")
    | MediaParse | SetMedia _ | Play | Pause | AudioSetVolume _ => Ok tt
    | MediaGetMetaTitle => Ok None
    | IsPlaying => Ok false
    | GetState => Ok NothingSpecial
    | GetTime => Ok (-1)
    end.

(** An engine whose calls all return, and that reports what [status] says. *)
Definition steady_engine (playing : bool) (status : VlcState) : Engine :=
  fun _ c =>
    match c return PyResult (Answer c) with
    | MediaNew _ | MediaParse | SetMedia _ | Play | Pause | AudioSetVolume _ => Ok tt
    | MediaGetMetaTitle => Ok None
    | IsPlaying => Ok playing
    | GetState => Ok status
    | GetTime => Ok 0
    end.

(** The player after a start on [sample_fs] with the configuration file
    [file]. *)
Definition started (file : ConfigFile) (eng : Engine) : World :=
  world_of (__init__ (boot sample_fs "/m" file None true eng)).

(** A configuration file that turns shuffle off. *)
Definition shuffle_off : ConfigFile := JsonFile {["shuffle" := VBool false]}.

(** A started player on the third of five tracks, shuffle off. *)
Definition five_tracks : World :=
  set_current_index 2
    (set_current_playlist_files
       ["/m/B/1.mp3"; "/m/B/2.mp3"; "/m/B/3.mp3"; "/m/B/4.mp3"; "/m/B/5.mp3"]
       (started shuffle_off (steady_engine true Playing))).

(** What a call of [play_song_at_index idx] that passes the bounds check
    does to the world [w], whatever the engine answers: the index is
    recorded, stored and written; the engine, when there is one, is asked
    to open the track; the catalog, the selection and the threads stay. *)
Definition commits (idx : Z) (w w' : World) : Prop :=
  current_index w' = idx
  /\ config w' = <["song_index" := VInt idx]> (config w)
  /\ (disk_error w = None -> config_file w' = JsonFile (config w'))
  /\ current_playlist_files w' = current_playlist_files w
  /\ current_playlist_name w' = current_playlist_name w
  /\ playlists w' = playlists w
  /\ playlist_names w' = playlist_names w
  /\ has_engine w' = has_engine w
  /\ engine w' = engine w
  /\ disk_error w' = disk_error w
  /\ threads w' = threads w
  /\ (if has_engine w
      then exists file_path rest,
             current_playlist_files w !! Z.to_nat idx = Some file_path
             /\ engine_calls w' = engine_calls w ++ MediaNew file_path :: rest
      else engine_calls w' = engine_calls w).

(** ** The end-of-track watcher *)

(** What the engine reports during the tick that starts in the world [w]:
    to the question whether it is playing, asked before the sleep and asked
    again after it, and then to the question about its state. *)
Definition poll_before (w : World) : PyResult bool :=
  engine w (engine_calls w) IsPlaying.
Definition poll_after (w : World) : PyResult bool :=
  engine w (engine_calls w ++ [IsPlaying]) IsPlaying.
Definition state_reported (w : World) : PyResult VlcState :=
  engine w ((engine_calls w ++ [IsPlaying]) ++ [IsPlaying]) GetState.

(** The tick from [w] to [w'] started one [next_song]. *)
Definition advanced (w w' : World) : Prop :=
  threads w' = threads w ++ [NextSong].

(** An engine that goes through the states [timeline], one per call made
    on it, and stays in the last; it is playing in the state [Playing]. *)
Definition timeline_engine (timeline : list VlcState) : Engine :=
  fun hist c =>
    let now := nth (List.length hist) timeline (List.last timeline NothingSpecial) in
    match c return PyResult (Answer c) with
    | MediaNew _ | MediaParse | SetMedia _ | Play | Pause | AudioSetVolume _ => Ok tt
    | MediaGetMetaTitle => Ok None
    | IsPlaying => Ok (VlcState_eqb now Playing)
    | GetState => Ok now
    | GetTime => Ok 0
    end.

(** A started player whose engine is about to go through [timeline]; the
    six calls of the start were made while it was playing. *)
Definition watching (timeline : list VlcState) : World :=
  started NoFile (timeline_engine (repeat Playing 6 ++ timeline)).

(** ** Order of the catalog *)

(** [l] is in non-decreasing order of [key], compared as strings. *)
Definition sorted_on {A} (key : A -> string) (l : list A) : Prop :=
  StronglySorted (fun a b => String.leb (key a) (key b) = true) l.

(** Case-sensitive order, and order up to case: the order of the
    lower-cased strings, for the case mapping [lower]. *)
Definition sorted_plain (l : list string) : Prop := sorted_on (fun s => s) l.
Definition sorted_nocase (lower : string -> string) (l : list string) : Prop :=
  sorted_on lower l.

(** Every track list of the catalog is in order up to case. *)
Definition tracks_sorted (lower : string -> string) (d : Catalog) : Prop :=
  Forall (fun kv => sorted_nocase lower (snd kv)) d.

(** The catalog as the first loop of [scan_playlists] leaves it: the
    playlists of the top-level folders. *)
Definition scan_top_level (fs : FileSystem) (root : string) : PyResult Catalog :=
  if negb (isdir fs root) then Ok []
  else res_bind (listdir fs root) (fun entries =>
         scan_top fs root (PySort.sorted entries) []).

(** ** Sessions *)

(** The operations of a session after the start. *)
Inductive Op :=
| SelectPlaylist (name : string)      (* on_playlist_change(name) *)
| Next (draw : Z)                     (* next_song() *)
| Prev (draw : Z)                     (* prev_song() *)
| PlayAt (idx : Z).                   (* play_song_at_index(idx) *)

Definition run_op (o : Op) : M unit :=
  match o with
  | SelectPlaylist name => on_playlist_change name
  | Next draw => next_song draw
  | Prev draw => prev_song draw
  | PlayAt idx => play_song_at_index idx
  end.

Fixpoint run_ops (ops : list Op) : M unit :=
  match ops with
  | [] => ret tt
  | o :: ops' => run_op o;; run_ops ops'
  end.

(** The index is one of the current playlist; with no track in the current
    playlist, the player shows that there is none. *)
Definition index_valid (w : World) : Prop :=
  match current_playlist_files w with
  | [] => song_label w = "No files in playlist"
  | _ :: _ => 0 <= current_index w < len (current_playlist_files w)
  end.

(** The configuration file holds no negative [song_index]. *)
Definition stored_index_nonneg (file : ConfigFile) : Prop :=
  forall m n, file = JsonFile m -> m !! "song_index" = Some (VInt n) -> 0 <= n.

(** A configuration file with the index -1. *)
Definition negative_index : ConfigFile := JsonFile {["song_index" := VInt (-1)]}.

(** A music directory without folders. *)
Definition bare_fs : FileSystem :=
  {| isdir p := String.eqb p "/m";
     listdir p := if String.eqb p "/m" then Ok ["readme.txt"]
                  else Err (OSError "Not a directory");
     str_lower := PyStr.lower |}.

(** What every operation of a session relies on and keeps: a valid index,
    and a [shuffle] entry in the configuration. *)
Definition session_ok (w : World) : Prop :=
  index_valid w /\ is_Some (config w !! "shuffle").

(** The configuration that [load_config] returns for a given file. *)
Definition loaded_config (file : ConfigFile) : gmap string PyVal :=
  match file with
  | JsonFile m => m ∪ default_config
  | BadFile | NoFile => default_config
  end.

(* ===================================================================== *)
(** * More of [MusicMinimalPlayer]: volume, play and pause, refresh *)
(* ===================================================================== *)

(** The double quote character, for messages that contain it. *)
Definition dquote : string := String "034"%char EmptyString.

(** [v + k] for an [int] [k]: a [bool] is an [int]; [None] and a [str]
    cannot be added to an [int]. *)
Definition py_add (v : PyVal) (k : Z) : M Z :=
  match v with
  | VInt n => ret (n + k)
  | VBool b => ret (Z.b2z b + k)
  | VNone => raise (TypeError "unsupported operand type(s) for +: 'NoneType' and 'int'")
  | VStr _ =>
      raise (TypeError ("can only concatenate str (not " +:+ dquote +:+ "int"
                        +:+ dquote +:+ ") to str"))
  end.

(** [v - k] for an [int] [k]. *)
Definition py_sub (v : PyVal) (k : Z) : M Z :=
  match v with
  | VInt n => ret (n - k)
  | VBool b => ret (Z.b2z b - k)
  | VNone => raise (TypeError "unsupported operand type(s) for -: 'NoneType' and 'int'")
  | VStr _ => raise (TypeError "unsupported operand type(s) for -: 'str' and 'int'")
  end.

(** [volume_up]; [hasattr(self, 'player') and self.player is not None]
    holds exactly when there is an engine. *)
Definition volume_up : M unit :=
  let* current_vol := config_getitem "volume" in
  let* raised := py_add current_vol 10 in
  let new_vol := Z.min 100 raised in
  config_setitem "volume" (VInt new_vol);;
  let* present := gets has_engine in
  (if present then engine_call (AudioSetVolume (VInt new_vol)) else ret tt);;
  save_self_config.

Definition volume_down : M unit :=
  let* current_vol := config_getitem "volume" in
  let* lowered := py_sub current_vol 10 in
  let new_vol := Z.max 0 lowered in
  config_setitem "volume" (VInt new_vol);;
  let* present := gets has_engine in
  (if present then engine_call (AudioSetVolume (VInt new_vol)) else ret tt);;
  save_self_config.

Definition toggle_play : M unit :=
  let* playing := player_is_playing in
  if playing then
    engine_call Pause;;
    modify (set_play_btn GlyphPlay)
  else
    let* present := gets has_engine in
    if present then
      engine_call Play;;
      modify (set_play_btn GlyphPause)
    else ret tt.

(** Reading [self.current_playlist_name]. *)
Definition get_current_playlist_name : M NameAttr :=
  fun w =>
    match current_playlist_name w with
    | Unset => Raised (AttributeError "current_playlist_name") w
    | a => Done a w
    end.

(** [a in names], for the value of [self.current_playlist_name]. *)
Definition name_in (a : NameAttr) (names : list string) : bool :=
  match a with
  | Name s => existsb (String.eqb s) names
  | NameNone | Unset => false
  end.

Definition refresh_playlists : M unit :=
  let* root := gets music_root in
  let* fsys := gets fs in
  let* found := lift_result (scan_playlists fsys root) in
  modify (set_playlists found);;
  modify (set_playlist_names (PySort.sorted (Dict.keys found)));;
  let* names := gets playlist_names in
  (match names with
   | first :: _ =>
       let* current := get_current_playlist_name in
       (if negb (name_in current names)
        then modify (set_current_playlist_name (Name first))
        else ret tt);;
       let* files := lookup_current_playlist in
       modify (set_current_playlist_files files)
   | [] =>
       modify (set_current_playlist_name NameNone);;
       modify (set_current_playlist_files [])
   end);;
  modify (set_current_index 0);;
  _load_current_playlist.

(* ===================================================================== *)
(** * Vocabulary of the further properties *)
(* ===================================================================== *)

(** Issuing the calls [cmds] in order after the calls [hist], the engine
    answers every one of them. *)
Inductive engine_accepts (eng : Engine) : list EngineCmd -> list EngineCmd -> Prop :=
| accepts_nil hist : engine_accepts eng hist []
| accepts_cons hist c cmds a :
    eng hist c = Ok a ->
    engine_accepts eng (hist ++ [c]) cmds ->
    engine_accepts eng hist (c :: cmds).

(** The title that the engine reports for the media it has just parsed,
    two calls after [hist]. *)
Definition meta_title (eng : Engine) (hist : list EngineCmd) (file_path : string)
  : PyResult (option string) :=
  eng ((hist ++ [MediaNew file_path]) ++ [MediaParse]) MediaGetMetaTitle.

(** The title shown for a track: the reported one unless it is missing or
    empty, else the file name. *)
Definition shown_title (reported : option string) (file_path : string) : string :=
  match reported with
  | Some s => if String.eqb s "" then PyStr.basename file_path else s
  | None => PyStr.basename file_path
  end.

(** A name is an audio file name: lower-cased, it ends in one of the
    extensions. *)
Definition is_audio (fsys : FileSystem) (f : string) : bool :=
  PyStr.endswith_any (str_lower fsys f) audio_extensions.

(** The tracks of the folder [dir]: its audio files, joined to it, sorted
    by path up to case. *)
Definition folder_tracks (fsys : FileSystem) (dir : string) (tracks : list string)
  : Prop :=
  isdir fsys dir = true
  /\ exists names,
       listdir fsys dir = Ok names
       /\ tracks = PySort.sorted_by (str_lower fsys)
                     (map (PyStr.path_join dir) (List.filter (is_audio fsys) names)).

(** The playlist [(key, tracks)] is that of a folder of the root, or of a
    folder one level below, and it has a track. *)
Definition playlist_of_folder (fsys : FileSystem) (root key : string)
    (tracks : list string) : Prop :=
  tracks <> []
  /\ (folder_tracks fsys (PyStr.path_join root key) tracks
      \/ exists entry sub,
           key = entry +:+ "/" +:+ sub
           /\ isdir fsys (PyStr.path_join root entry) = true
           /\ folder_tracks fsys
                (PyStr.path_join (PyStr.path_join root entry) sub) tracks).

(** The attributes that only the transport methods and the start change. *)
Definition same_session (w w' : World) : Prop :=
  config w' = config w
  /\ config_file w' = config_file w
  /\ playlists w' = playlists w
  /\ playlist_names w' = playlist_names w
  /\ current_playlist_name w' = current_playlist_name w
  /\ current_playlist_files w' = current_playlist_files w
  /\ current_index w' = current_index w
  /\ song_label w' = song_label w.

(** The name that [refresh_playlists] settles on, given the sorted names
    of the new catalog. *)
Definition refreshed_name (current : NameAttr) (names : list string) : NameAttr :=
  match names with
  | [] => NameNone
  | first :: _ => if name_in current names then current else Name first
  end.

(** The track list that the catalog [d] has for the value of
    [self.current_playlist_name]. *)
Definition tracks_of (d : Catalog) (a : NameAttr) : list string :=
  match a with
  | Name s => Dict.get d s
  | NameNone | Unset => []
  end.

(** Unfolds the methods of this part down to the operations of the monad. *)
Ltac py_more :=
  cbv beta iota delta
    [volume_up volume_down toggle_play py_add py_sub player_is_playing
     get_current_playlist_name update_time_display monitor_time_tick
     start_player_monitor start_time_monitor];
  py_run.

(** One step along a derivation of [engine_accepts]. *)
Ltac accept_step :=
  match goal with
  | H : engine_accepts _ _ (_ :: _) |- _ =>
      let Hr := fresh "Hr" in
      inversion H as [|? ? ? ? Hr ?]; subst; clear H
  end.

(** The names of a catalog are distinct and each playlist is that of a
    folder. *)
Definition catalog_of_folders (fsys : FileSystem) (root : string) (d : Catalog)
  : Prop :=
  NoDup (Dict.keys d)
  /\ Forall (fun kv => playlist_of_folder fsys root (fst kv) (snd kv)) d.

(** The name that the start settles on: the stored one when it is a name
    of the catalog, else the first name. *)
Definition restored_name (saved : PyVal) (names : list string) (first : string)
  : string :=
  match saved with
  | VStr s => if existsb (String.eqb s) names then s else first
  | _ => first
  end.

(** The world in which [on_playlist_change] hands over to
    [play_song_at_index]: the name is assigned, stored under [playlist]
    and saved, the index is 0 and the tracks of the name are loaded. *)
Definition selected (playlist_name : string) (w : World) : World :=
  let w1 := set_config (<["playlist" := VStr playlist_name]> (config w))
              (set_current_playlist_name (Name playlist_name) w) in
  let w2 := world_of (save_config (config w1) w1) in
  set_current_playlist_files (Dict.get (playlists w) playlist_name)
    (set_current_index 0 w2).
(* ===================================================================== *)
(** * Properties of [format_time] *)
(* ===================================================================== *)

Section FormatTime.
Import PyFormat.
Local Arguments digit_char : simpl never.
Local Arguments digit_val : simpl never.
Local Arguments Z.div : simpl never.
Local Arguments Z.modulo : simpl never.
Local Arguments Z.pow : simpl never.
Local Arguments Z.log2 : simpl never.

Lemma digits_fuel_acc fuel : forall n acc,
  digits_fuel fuel n acc = digits_fuel fuel n EmptyString +:+ acc.
Proof.
  induction fuel as [|fuel IH]; intros n acc; simpl; [reflexivity|].
  destruct (n / 10 =? 0); [reflexivity|].
  rewrite (IH _ (String _ acc)), (IH _ (String _ EmptyString)).
  generalize (digits_fuel fuel (n / 10) EmptyString) as s.
  induction s as [|c s IHs]; simpl; [reflexivity|].
  unfold String.app in *; simpl; now rewrite IHs.
Qed.

Lemma parse_from_app s : forall a t,
  parse_from a (s +:+ t) =
  match parse_from a s with Some v => parse_from v t | None => None end.
Proof.
  induction s as [|c s IH]; intros a t; [reflexivity|].
  change (String c s +:+ t) with (String c (s +:+ t)); simpl.
  destruct (digit_val c); [apply IH | reflexivity].
Qed.

Lemma digit_val_char d : 0 <= d < 10 -> digit_val (digit_char d) = Some d.
Proof.
  intros H.
  assert (d = 0 \/ d = 1 \/ d = 2 \/ d = 3 \/ d = 4 \/ d = 5 \/ d = 6
          \/ d = 7 \/ d = 8 \/ d = 9) as Hd by lia.
  repeat (destruct Hd as [-> | Hd]; [reflexivity|]); subst; reflexivity.
Qed.

Lemma parse_digits fuel : forall n,
  0 <= n < 10 ^ Z.of_nat fuel ->
  parse_from 0 (digits_fuel fuel n EmptyString) = Some n.
Proof.
  induction fuel as [|fuel IH]; intros n Hn.
  - simpl in *. f_equal; lia.
  - rewrite Nat2Z.inj_succ, Z.pow_succ_r in Hn by lia.
    cbn [digits_fuel].
    pose proof (Z.mod_pos_bound n 10 ltac:(lia)) as Hm.
    pose proof (Z.div_mod n 10 ltac:(lia)) as Hdm.
    destruct (Z.eqb_spec (n / 10) 0) as [Hz|Hz].
    + cbn [parse_from]. rewrite digit_val_char by lia. f_equal; lia.
    + rewrite digits_fuel_acc, parse_from_app, IH.
      * cbn [parse_from]. rewrite digit_val_char by lia. f_equal; lia.
      * split; [apply Z.div_pos; lia | apply Z.div_lt_upper_bound; lia].
Qed.

Lemma enough_fuel n : 0 <= n -> n < 10 ^ Z.of_nat (S (Z.to_nat (Z.log2 n))).
Proof.
  intros Hn.
  rewrite Nat2Z.inj_succ, Z2Nat.id by apply Z.log2_nonneg.
  destruct (Z.eq_dec n 0) as [->|Hnz]; [reflexivity|].
  pose proof (Z.log2_spec n ltac:(lia)) as [_ Hlt].
  pose proof (Z.log2_nonneg n).
  eapply Z.lt_le_trans; [exact Hlt|].
  apply Z.pow_le_mono_l; lia.
Qed.

Lemma parse_str_nonneg n : 0 <= n -> parse_from 0 (str_nonneg n) = Some n.
Proof.
  intros Hn. unfold str_nonneg. apply parse_digits.
  split; [exact Hn | now apply enough_fuel].
Qed.

Lemma length_digits fuel : forall n acc k,
  0 <= n < 10 ^ Z.of_nat (S k) ->
  (String.length (digits_fuel (S fuel) n acc) <= S k + String.length acc)%nat.
Proof.
  induction fuel as [|fuel IH]; intros n acc k Hn.
  - simpl. destruct (n / 10 =? 0); simpl; lia.
  - cbn [digits_fuel].
    destruct (Z.eqb_spec (n / 10) 0) as [Hz|Hz]; [simpl; lia|].
    destruct k as [|k].
    + exfalso. apply Hz. apply Z.div_small. simpl in Hn. lia.
    + specialize (IH (n / 10) (String (digit_char (n mod 10)) acc) k).
      cbn [digits_fuel] in IH. etransitivity; [apply IH|simpl; lia].
      rewrite (Nat2Z.inj_succ (S k)), Z.pow_succ_r in Hn by lia.
      split; [apply Z.div_pos; lia | apply Z.div_lt_upper_bound; lia].
Qed.

Lemma length_digits_pos fuel n acc :
  (1 + String.length acc <= String.length (digits_fuel (S fuel) n acc))%nat.
Proof.
  revert n acc. induction fuel as [|fuel IH]; intros n acc.
  - simpl. destruct (n / 10 =? 0); simpl; lia.
  - cbn [digits_fuel]. destruct (n / 10 =? 0); [simpl; lia|].
    specialize (IH (n / 10) (String (digit_char (n mod 10)) acc)).
    cbn [digits_fuel] in IH. simpl in IH. lia.
Qed.

Lemma string_length_app (s t : string) :
  String.length (s +:+ t) = (String.length s + String.length t)%nat.
Proof.
  induction s as [|c s IH]; [reflexivity|].
  change (String c s +:+ t) with (String c (s +:+ t)). simpl. now rewrite IH.
Qed.

Lemma length_zeros k : String.length (zeros k) = k.
Proof. induction k; simpl; congruence. Qed.

Lemma parse_zeros k : parse_from 0 (zeros k) = Some 0.
Proof. induction k; [reflexivity | exact IHk]. Qed.

(** A non-negative number is rendered without sign, to at least two
    characters, and reads back as itself. *)
Lemma format_02d_nonneg n :
  0 <= n ->
  parse_dec (format_02d n) = Some n /\ (2 <= String.length (format_02d n))%nat.
Proof.
  intros Hn. unfold format_02d.
  destruct (Z.ltb_spec n 0) as [?|_]; [lia|].
  rewrite Z.abs_eq by lia.
  change ("" +:+ ?s) with s. cbn [String.length Nat.sub].
  assert (2 <= String.length (zeros (2 - String.length (str_nonneg n))
                              +:+ str_nonneg n))%nat as Hlen.
  { rewrite string_length_app, length_zeros. lia. }
  split; [|exact Hlen].
  unfold parse_dec.
  destruct (zeros _ +:+ str_nonneg n) eqn:E; [simpl in Hlen; lia|].
  rewrite <- E, parse_from_app, parse_zeros. now apply parse_str_nonneg.
Qed.

(** Below one hundred the rendering has exactly two characters. *)
Lemma format_02d_two n :
  0 <= n < 100 -> String.length (format_02d n) = 2%nat.
Proof.
  intros Hn. unfold format_02d.
  destruct (Z.ltb_spec n 0) as [?|_]; [lia|].
  rewrite Z.abs_eq by lia.
  change ("" +:+ ?s) with s. cbn [String.length Nat.sub].
  rewrite string_length_app, length_zeros.
  pose proof (length_digits (Z.to_nat (Z.log2 n)) n EmptyString 1 ltac:(simpl; lia)).
  pose proof (length_digits_pos (Z.to_nat (Z.log2 n)) n EmptyString).
  unfold str_nonneg. simpl in *. lia.
Qed.

End FormatTime.

(** C9. For every non-negative number of milliseconds, [format_time]
    returns a minutes field, a colon and a seconds field; the minutes field
    is the numeral of [(ms // 1000) // 60], whatever its size, written with
    at least two characters; the seconds field is the numeral of
    [(ms // 1000) % 60] written with exactly two characters. In particular
    125000 gives 02:05, 59000 gives 00:59 and 3661000 gives 61:01. *)
Theorem format_time_fields (ms : Z) :
  0 <= ms ->
  exists mm ss : string,
    format_time ms = mm +:+ ":" +:+ ss
    /\ PyFormat.parse_dec mm = Some (ms / 1000 / 60)
    /\ (2 <= String.length mm)%nat
    /\ PyFormat.parse_dec ss = Some ((ms / 1000) mod 60)
    /\ String.length ss = 2%nat
    /\ format_time 125000 = "02:05"
    /\ format_time 59000 = "00:59"
    /\ format_time 3661000 = "61:01".
Proof.
  intros Hms.
  assert (0 <= ms / 1000) as Hs by (apply Z.div_pos; lia).
  assert (0 <= ms / 1000 / 60) as Hm by (apply Z.div_pos; lia).
  pose proof (Z.mod_pos_bound (ms / 1000) 60 ltac:(lia)) as Hsec.
  destruct (format_02d_nonneg (ms / 1000 / 60) Hm) as [Pm Lm].
  destruct (format_02d_nonneg ((ms / 1000) mod 60) ltac:(lia)) as [Ps _].
  exists (PyFormat.format_02d (ms / 1000 / 60)),
         (PyFormat.format_02d ((ms / 1000) mod 60)).
  repeat split; try assumption; try reflexivity.
  apply format_02d_two; lia.
Qed.

Lemma format_time_fields_witness :
  0 <= 3661000 /\
  exists mm ss : string,
    format_time 3661000 = mm +:+ ":" +:+ ss
    /\ PyFormat.parse_dec mm = Some (3661000 / 1000 / 60)
    /\ (2 <= String.length mm)%nat
    /\ PyFormat.parse_dec ss = Some ((3661000 / 1000) mod 60)
    /\ String.length ss = 2%nat
    /\ format_time 125000 = "02:05"
    /\ format_time 59000 = "00:59"
    /\ format_time 3661000 = "61:01".
Proof. split; [lia | apply (format_time_fields 3661000); lia]. Defined.

(* ===================================================================== *)
(** * Running methods *)
(* ===================================================================== *)

Lemma lookup_in_range (l : list string) (i : Z) :
  0 <= i < len l -> exists x, l !! Z.to_nat i = Some x.
Proof.
  intros H. apply lookup_lt_is_Some_2. unfold len in H. lia.
Qed.

(** The body of the [try] changes nothing but the record of the calls
    made; the calls are those of the script, in order, each once, up to the
    one that raises. *)
Lemma engine_load_and_play_calls file_path title w :
  exists (calls : list EngineCmd) (volume : PyVal),
    calls `prefix_of` play_script file_path volume /\
    head calls = Some (MediaNew file_path) /\
    ((exists shown,
        engine_load_and_play file_path title w
        = Done shown (set_engine_calls (engine_calls w ++ calls) w)
        /\ calls = play_script file_path volume)
     \/ (exists e,
        engine_load_and_play file_path title w
        = Raised e (set_engine_calls (engine_calls w ++ calls) w))).
Proof.
  destruct w. unfold engine_load_and_play. py_run.
  set (vol := default VNone (config0 !! "volume")).
  destruct (engine0 engine_calls0 (MediaNew file_path)) as [[]|e1]; py_world.
  2: { exists [MediaNew file_path], vol. split; [by eexists|]. split; [done|]. right. eauto. }
  destruct (engine0 _ MediaParse) as [[]|e2]; py_world.
  2: { exists [MediaNew file_path; MediaParse], vol.
       split; [by eexists|]. split; [done|]. right. exists e2. by rewrite <- !app_assoc. }
  destruct (engine0 _ MediaGetMetaTitle) as [t|e3]; py_world.
  2: { exists [MediaNew file_path; MediaParse; MediaGetMetaTitle], vol.
       split; [by eexists|]. split; [done|]. right. exists e3. by rewrite <- !app_assoc. }
  destruct (engine0 _ (SetMedia file_path)) as [[]|e4]; py_world.
  2: { exists [MediaNew file_path; MediaParse; MediaGetMetaTitle; SetMedia file_path], vol.
       split; [by eexists|]. split; [done|]. right. exists e4. by rewrite <- !app_assoc. }
  destruct (engine0 _ Play) as [[]|e5]; py_world.
  2: { exists [MediaNew file_path; MediaParse; MediaGetMetaTitle; SetMedia file_path; Play], vol.
       split; [by eexists|]. split; [done|]. right. exists e5. by rewrite <- !app_assoc. }
  subst vol. destruct (config0 !! "volume") as [v|] eqn:Hv; cbn [default]; py_world.
  2: { exists [MediaNew file_path; MediaParse; MediaGetMetaTitle; SetMedia file_path; Play], VNone.
       split; [by eexists|]. split; [done|]. right. exists (KeyError "volume"). by rewrite <- !app_assoc. }
  destruct (engine0 _ (AudioSetVolume v)) as [[]|e6]; py_world.
  2: { exists (play_script file_path v), v.
       split; [done|]. split; [done|]. right. exists e6. by rewrite <- !app_assoc. }
  exists (play_script file_path v), v. split; [done|]. split; [done|]. left.
  eexists. split; [|done]. by rewrite <- !app_assoc.
Qed.


(** The state once [play_song_at_index] has recorded and saved the index
    it was asked for, before anything is asked of the engine. *)
Lemma play_song_at_index_in_range (w : World) (idx : Z) (file_path : string) :
  0 <= idx ->
  current_playlist_files w !! Z.to_nat idx = Some file_path ->
  play_song_at_index idx w =
  let w1 := set_config (<["song_index" := VInt idx]> (config w))
              (set_current_index idx w) in
  let w2 := world_of (save_config (config w1) w1) in
  if has_engine w then
    match engine_load_and_play file_path (PyStr.basename file_path) w2 with
    | Done title w3 => Done tt (set_play_btn GlyphPause (set_song_label title w3))
    | Raised e w3 =>
        Done tt (set_stdout
                   (stdout w3 ++
                    ["Error playing " +:+ file_path +:+ ": " +:+ exn_str e]) w3)
    end
  else
    Done tt (set_play_btn GlyphPause
               (set_song_label (PyStr.basename file_path) w2)).
Proof.
  intros Hidx Hp.
  assert (idx < len (current_playlist_files w)) as Hlt.
  { apply lookup_lt_Some in Hp. unfold len. lia. }
  assert ((idx <? 0) = false) as E1 by lia.
  assert ((idx >=? len (current_playlist_files w)) = false) as E2
    by (rewrite Z.geb_leb; lia).
  destruct w. unfold play_song_at_index, list_getitem. py_run.
  destruct current_playlist_files0 as [|f files]; [discriminate Hp|].
  cbn [is_empty]. rewrite E1, E2. cbn [orb]. py_run.
  rewrite !E1, Hp. py_run.
  destruct disk_error0 as [[?|?]|]; py_run; cbn [world_of]; destruct has_engine0; py_run;
    try reflexivity;
    match goal with
    | |- context [engine_load_and_play ?p ?t ?w0] =>
        destruct (engine_load_and_play p t w0); reflexivity
    end.
Qed.

Lemma play_song_at_index_commits (w : World) (idx : Z) :
  0 <= idx < len (current_playlist_files w) ->
  exists w', play_song_at_index idx w = Done tt w' /\ commits idx w w'.
Proof.
  intros Hidx.
  destruct (lookup_in_range _ _ Hidx) as [file_path Hp].
  rewrite (play_song_at_index_in_range w idx file_path (proj1 Hidx) Hp).
  cbv zeta. unfold commits.
  destruct (has_engine w) eqn:Heng.
  - match goal with
    | |- context [engine_load_and_play ?p ?t ?w0] =>
        destruct (engine_load_and_play_calls p t w0)
          as (calls & vol & Hpre & Hhd & [(shown & -> & _) | (e & ->)])
    end;
    (destruct calls as [|c rest]; [discriminate Hhd|]);
    injection Hhd as ->;
    destruct w; destruct disk_error0 as [[?|?]|]; py_run; cbn [world_of]; py_world;
      (eexists; split; [reflexivity|]); py_world; subst;
      repeat split; try done; eauto.
  - destruct w; destruct disk_error0 as [[?|?]|]; py_run; cbn [world_of]; py_world;
      (eexists; split; [reflexivity|]); py_world; subst;
      repeat split; done.
Qed.

(** Outside the bounds [play_song_at_index] does nothing. *)
Lemma play_song_at_index_skips (w : World) (idx : Z) :
  idx < 0 \/ len (current_playlist_files w) <= idx ->
  play_song_at_index idx w = Done tt w.
Proof.
  intros H. unfold play_song_at_index. py_run.
  destruct (is_empty (current_playlist_files w)); [reflexivity|].
  destruct (Z.ltb_spec idx 0) as [?|?]; [reflexivity|].
  rewrite Z.geb_leb.
  destruct (Z.leb_spec (len (current_playlist_files w)) idx); [reflexivity | lia].
Qed.

(** C8. For every index outside [[0, L)], with [L] the length of the
    current playlist, [play_song_at_index] returns with the whole world as
    it was: the current index, the stored and the written [song_index],
    every other attribute, and no call made on the engine. *)
Theorem play_song_at_index_out_of_range (w : World) (idx : Z) :
  idx < 0 \/ len (current_playlist_files w) <= idx ->
  play_song_at_index idx w = Done tt w
  /\ current_index (world_of (play_song_at_index idx w)) = current_index w
  /\ config (world_of (play_song_at_index idx w)) !! "song_index"
     = config w !! "song_index"
  /\ config_file (world_of (play_song_at_index idx w)) = config_file w
  /\ engine_calls (world_of (play_song_at_index idx w)) = engine_calls w.
Proof.
  intros H. rewrite (play_song_at_index_skips w idx H). repeat split.
Qed.

Lemma play_song_at_index_out_of_range_witness :
  (7 < 0 \/ len (current_playlist_files (started NoFile broken_engine)) <= 7)
  /\ play_song_at_index 7 (started NoFile broken_engine)
     = Done tt (started NoFile broken_engine).
Proof.
  split; [right; vm_compute; discriminate|].
  apply (play_song_at_index_out_of_range (started NoFile broken_engine) 7).
  right. vm_compute. discriminate.
Defined.

(* ===================================================================== *)
(** * Engine failures in [play_song_at_index] *)
(* ===================================================================== *)

Example started_broken :
  let w := started NoFile broken_engine in
  current_playlist_name w = Name "B"
  /\ current_playlist_files w = ["/m/B/a.MP3"; "/m/B/B.mp3"]
  /\ current_index w = 0
  /\ config w !! "song_index" = Some (VInt 0)
  /\ stdout w = ["Error playing /m/B/a.MP3: cannot open"]
  /\ engine_calls w = [MediaNew "/m/B/a.MP3"]
  /\ song_label w = "No song playing".
Proof. vm_compute. repeat split. Qed.




(* ===================================================================== *)
(** * [next_song] and [prev_song] *)
(* ===================================================================== *)

Lemma playlist_length_pos (w : World) :
  current_playlist_files w <> [] -> 0 < len (current_playlist_files w).
Proof.
  unfold len. destruct (current_playlist_files w); [done | simpl; lia].
Qed.

(** With shuffle off, [next_song] is [play_song_at_index] at the index
    after the current one, counted round the playlist. *)
Lemma next_song_in_order (w : World) (v : PyVal) (draw : Z) :
  config w !! "shuffle" = Some v ->
  truthy v = false ->
  current_playlist_files w <> [] ->
  exists w', next_song draw w = Done tt w'
    /\ commits ((current_index w + 1) mod len (current_playlist_files w)) w w'.
Proof.
  intros Hsh Hv Hne.
  pose proof (playlist_length_pos w Hne) as HL.
  pose proof (Z.mod_pos_bound (current_index w + 1) _ HL) as Hb.
  destruct w. py_world.
  match goal with
  | |- context [commits ?i ?w0] =>
      destruct (play_song_at_index_commits (set_current_index i w0) i)
        as (w' & Hrun & Hc); [exact Hb|]
  end.
  exists w'. split; [|exact Hc].
  rewrite <- Hrun. unfold next_song. py_run.
  destruct current_playlist_files0; [done|]. cbn [is_empty]. py_run.
  rewrite Hsh. py_run. rewrite Hv. reflexivity.
Qed.

Lemma prev_song_in_order (w : World) (v : PyVal) (draw : Z) :
  config w !! "shuffle" = Some v ->
  truthy v = false ->
  current_playlist_files w <> [] ->
  exists w', prev_song draw w = Done tt w'
    /\ commits ((current_index w - 1) mod len (current_playlist_files w)) w w'.
Proof.
  intros Hsh Hv Hne.
  pose proof (playlist_length_pos w Hne) as HL.
  pose proof (Z.mod_pos_bound (current_index w - 1) _ HL) as Hb.
  destruct w. py_world.
  match goal with
  | |- context [commits ?i ?w0] =>
      destruct (play_song_at_index_commits (set_current_index i w0) i)
        as (w' & Hrun & Hc); [exact Hb|]
  end.
  exists w'. split; [|exact Hc].
  rewrite <- Hrun. unfold prev_song. py_run.
  destruct current_playlist_files0; [done|]. cbn [is_empty]. py_run.
  rewrite Hsh. py_run. rewrite Hv. reflexivity.
Qed.

(** C7. With shuffle off and a current playlist of length [L > 0],
    [next_song] returns with the index at [(current + 1) mod L] and
    [prev_song] with the index at [(current - 1) mod L]; and from every
    index of [[0, L)], [next_song] followed by [prev_song] ends at the index
    it started from. *)
Theorem next_prev_wraparound (w : World) (v : PyVal) (draw1 draw2 : Z) :
  config w !! "shuffle" = Some v ->
  truthy v = false ->
  current_playlist_files w <> [] ->
  (exists w1, next_song draw1 w = Done tt w1
     /\ current_index w1 = (current_index w + 1) mod len (current_playlist_files w))
  /\ (exists w1, prev_song draw1 w = Done tt w1
     /\ current_index w1 = (current_index w - 1) mod len (current_playlist_files w))
  /\ (0 <= current_index w < len (current_playlist_files w) ->
      exists w1 w2,
        next_song draw1 w = Done tt w1
        /\ prev_song draw2 w1 = Done tt w2
        /\ current_index w2 = current_index w).
Proof.
  intros Hsh Hv Hne.
  destruct (next_song_in_order w v draw1 Hsh Hv Hne) as (w1 & Hn & Hc).
  destruct (prev_song_in_order w v draw1 Hsh Hv Hne) as (wp & Hpv & Hcp).
  split; [exists w1; split; [exact Hn | apply Hc]|].
  split; [exists wp; split; [exact Hpv | apply Hcp]|].
  intros Hcur.
  destruct Hc as (Hi & Hcfg & _ & Hfiles & _).
  destruct (prev_song_in_order w1 v draw2) as (w2 & Hp2 & Hc2).
  - rewrite Hcfg, lookup_insert_ne by done. exact Hsh.
  - exact Hv.
  - rewrite Hfiles. exact Hne.
  - exists w1, w2. repeat split; [exact Hn | exact Hp2 |].
    destruct Hc2 as (-> & _). rewrite Hi, Hfiles.
    rewrite Zminus_mod_idemp_l.
    replace (current_index w + 1 - 1) with (current_index w) by lia.
    apply Z.mod_small. exact Hcur.
Qed.

Lemma next_prev_wraparound_witness :
  (exists w1, next_song 7 five_tracks = Done tt w1
     /\ current_index w1
        = (current_index five_tracks + 1) mod len (current_playlist_files five_tracks))
  /\ (exists w1, prev_song 7 five_tracks = Done tt w1
     /\ current_index w1
        = (current_index five_tracks - 1) mod len (current_playlist_files five_tracks))
  /\ (0 <= current_index five_tracks < len (current_playlist_files five_tracks) ->
      exists w1 w2,
        next_song 7 five_tracks = Done tt w1
        /\ prev_song 9 w1 = Done tt w2
        /\ current_index w2 = current_index five_tracks).
Proof.
  apply (next_prev_wraparound five_tracks (VBool false) 7 9).
  - reflexivity.
  - reflexivity.
  - discriminate.
Defined.

(** The example of the specification: from index 2 of 5, [next_song] goes
    to 3 and [prev_song] back to 2; from the last index [next_song] wraps
    to 0, and from 0 [prev_song] wraps to the last. *)
Example next_prev_five :
  current_index (world_of (next_song 0 five_tracks)) = 3
  /\ current_index (world_of (prev_song 0 (world_of (next_song 0 five_tracks)))) = 2
  /\ current_index (world_of (next_song 0 (set_current_index 4 five_tracks))) = 0
  /\ current_index (world_of (prev_song 0 (set_current_index 0 five_tracks))) = 4.
Proof. vm_compute. repeat split. Qed.

(* ===================================================================== *)
(** * The toggle handlers *)
(* ===================================================================== *)

(** C10. [on_shuffle_toggle] stores under [shuffle] the value it reads
    there, and [toggle_pin] does the same under [pinned]: when the key is
    present each handler returns with the flag, and the whole
    configuration, as before, and writes that configuration out again. *)
Theorem toggles_keep_flags (w : World) :
  (forall v, config w !! "shuffle" = Some v ->
     exists w', on_shuffle_toggle w = Done tt w'
       /\ config w' !! "shuffle" = Some v
       /\ config w' = config w
       /\ (disk_error w = None -> config_file w' = JsonFile (config w)))
  /\ (forall v, config w !! "pinned" = Some v ->
     exists w', toggle_pin w = Done tt w'
       /\ config w' !! "pinned" = Some v
       /\ config w' = config w
       /\ (disk_error w = None -> config_file w' = JsonFile (config w))).
Proof.
  split; intros v Hv.
  - unfold on_shuffle_toggle. destruct w. py_run. rewrite Hv. cbn [default].
    rewrite (insert_id _ _ _ Hv).
    destruct disk_error0 as [[?|?]|]; py_run; eexists; (split; [reflexivity|]); py_world;
      repeat split; done.
  - unfold toggle_pin. destruct w. py_run. rewrite Hv. cbn [default].
    rewrite (insert_id _ _ _ Hv), Hv. py_run. rewrite Hv.
    destruct (truthy v); py_run;
      destruct disk_error0 as [[?|?]|]; py_run; eexists; (split; [reflexivity|]); py_world;
      repeat split; done.
Qed.

Lemma toggles_keep_flags_witness :
  (exists w', on_shuffle_toggle (started shuffle_off broken_engine) = Done tt w'
       /\ config w' !! "shuffle" = Some (VBool false)
       /\ config w' = config (started shuffle_off broken_engine))
  /\ (exists w', toggle_pin (started shuffle_off broken_engine) = Done tt w'
       /\ config w' !! "pinned" = Some (VBool true)
       /\ config w' = config (started shuffle_off broken_engine)).
Proof.
  destruct (toggles_keep_flags (started shuffle_off broken_engine)) as [Hs Hp].
  split.
  - destruct (Hs (VBool false)) as (w' & H1 & H2 & H3 & _); [reflexivity|].
    exists w'. repeat split; assumption.
  - destruct (Hp (VBool true)) as (w' & H1 & H2 & H3 & _); [reflexivity|].
    exists w'. repeat split; assumption.
Defined.

(* ===================================================================== *)
(** * [on_playlist_change] *)
(* ===================================================================== *)

Lemma dict_get_unknown (d : Catalog) (name : string) :
  name ∉ Dict.keys d -> Dict.get d name = [].
Proof.
  induction d as [|[k v] d IH]; intros Hn; [reflexivity|].
  simpl. destruct (String.eqb_spec k name) as [->|Hne].
  - exfalso. apply Hn. simpl. left.
  - apply IH. intros Hin. apply Hn. simpl. by right.
Qed.

(** C4, as stated, fails: a started player is moved to index 1 of
    playlist [B]; the catalog has no playlist [Z], yet
    [on_playlist_change "Z"] makes [Z] the active name, stores and writes
    it under [playlist], puts the index back to 0 and empties the track
    list. *)
Lemma on_playlist_change_unknown_not_noop :
  ("Z" ∉ Dict.keys
           (playlists (world_of (play_song_at_index 1
                                   (started NoFile (steady_engine true Playing))))))
  /\ current_playlist_name
       (world_of (play_song_at_index 1 (started NoFile (steady_engine true Playing))))
     = Name "B"
  /\ current_index
       (world_of (play_song_at_index 1 (started NoFile (steady_engine true Playing))))
     = 1
  /\ returned
       (on_playlist_change "Z"
          (world_of (play_song_at_index 1
                       (started NoFile (steady_engine true Playing))))) = true
  /\ current_playlist_name
       (world_of (on_playlist_change "Z"
          (world_of (play_song_at_index 1
                       (started NoFile (steady_engine true Playing))))))
     = Name "Z"
  /\ current_index
       (world_of (on_playlist_change "Z"
          (world_of (play_song_at_index 1
                       (started NoFile (steady_engine true Playing))))))
     = 0
  /\ config
       (world_of (on_playlist_change "Z"
          (world_of (play_song_at_index 1
                       (started NoFile (steady_engine true Playing))))))
     !! "playlist" = Some (VStr "Z")
  /\ current_playlist_files
       (world_of (on_playlist_change "Z"
          (world_of (play_song_at_index 1
                       (started NoFile (steady_engine true Playing))))))
     = [].
Proof.
  split.
  - assert (Dict.keys
              (playlists (world_of (play_song_at_index 1
                                      (started NoFile (steady_engine true Playing)))))
            = ["B"; "a"; "a/live"]) as -> by (vm_compute; reflexivity).
    intros H%list_elem_of_In. simpl in H.
    destruct H as [H|[H|[H|[]]]]; discriminate H.
  - vm_compute. repeat split.
Qed.

(** When the engine answers every call of the script, the body of the
    [try] returns the title to show, having made the calls of the script. *)
Lemma engine_load_and_play_accepts file_path title w volume reported :
  config w !! "volume" = Some volume ->
  engine_accepts (engine w) (engine_calls w) (play_script file_path volume) ->
  meta_title (engine w) (engine_calls w) file_path = Ok reported ->
  engine_load_and_play file_path title w
  = Done (match reported with
          | Some s => if String.eqb s "" then title else s
          | None => title
          end)
         (set_engine_calls (engine_calls w ++ play_script file_path volume) w).
Proof.
  intros Hvol Ha Hm. destruct w. unfold engine_load_and_play, play_script, meta_title in *.
  py_run.
  accept_step. rewrite Hr. py_world.
  accept_step. rewrite Hr0. py_world.
  accept_step. rewrite Hm. py_world.
  accept_step. rewrite Hr2. py_world.
  accept_step. rewrite Hr3. py_world.
  rewrite Hvol. py_world.
  accept_step. rewrite Hr4. py_world.
  by rewrite <- !app_assoc.
Qed.

(** A track that the engine accepts: the whole script is played and the
    title shown. *)
Lemma play_song_at_index_succeeds
    (w : World) (idx : Z) (file_path : string) (volume : PyVal)
    (reported : option string) :
  has_engine w = true ->
  0 <= idx ->
  current_playlist_files w !! Z.to_nat idx = Some file_path ->
  config w !! "volume" = Some volume ->
  engine_accepts (engine w) (engine_calls w) (play_script file_path volume) ->
  meta_title (engine w) (engine_calls w) file_path = Ok reported ->
  exists w',
    play_song_at_index idx w = Done tt w'
    /\ song_label w' = shown_title reported file_path
    /\ play_btn w' = GlyphPause
    /\ engine_calls w' = engine_calls w ++ play_script file_path volume.
Proof.
  intros Heng Hidx Hp Hvol Ha Hm.
  rewrite (play_song_at_index_in_range w idx file_path Hidx Hp), Heng.
  cbv zeta.
  match goal with
  | |- context [engine_load_and_play ?p ?t ?w0] =>
      rewrite (engine_load_and_play_accepts p t w0 volume reported)
  end.
  - destruct w; destruct disk_error0 as [[?|?]|]; py_run; cbn [world_of]; py_world;
      eexists; (split; [reflexivity|]); py_world; done.
  - destruct w; destruct disk_error0 as [[?|?]|]; py_run; cbn [world_of]; py_world;
      (rewrite lookup_insert_ne; [exact Hvol | done]).
  - destruct w; destruct disk_error0 as [[?|?]|]; py_run; cbn [world_of]; py_world;
      exact Ha.
  - destruct w; destruct disk_error0 as [[?|?]|]; py_run; cbn [world_of]; py_world;
      exact Hm.
Qed.

(** Without an engine the track is shown as playing under its file name. *)
Lemma play_song_at_index_without_engine
    (w : World) (idx : Z) (file_path : string) :
  has_engine w = false ->
  0 <= idx ->
  current_playlist_files w !! Z.to_nat idx = Some file_path ->
  exists w',
    play_song_at_index idx w = Done tt w'
    /\ song_label w' = PyStr.basename file_path
    /\ play_btn w' = GlyphPause
    /\ engine_calls w' = engine_calls w.
Proof.
  intros Heng Hidx Hp.
  rewrite (play_song_at_index_in_range w idx file_path Hidx Hp), Heng.
  cbv zeta.
  destruct w; destruct disk_error0 as [[?|?]|]; py_run; cbn [world_of]; py_world;
    eexists; (split; [reflexivity|]); py_world; done.
Qed.

(** What [selected] changes and what it keeps. *)
Lemma selected_frame (playlist_name : string) (w : World) :
  config (selected playlist_name w) = <["playlist" := VStr playlist_name]> (config w)
  /\ current_playlist_name (selected playlist_name w) = Name playlist_name
  /\ current_index (selected playlist_name w) = 0
  /\ current_playlist_files (selected playlist_name w)
     = Dict.get (playlists w) playlist_name
  /\ has_engine (selected playlist_name w) = has_engine w
  /\ engine (selected playlist_name w) = engine w
  /\ engine_calls (selected playlist_name w) = engine_calls w
  /\ disk_error (selected playlist_name w) = disk_error w
  /\ (disk_error w = None ->
      config_file (selected playlist_name w)
      = JsonFile (<["playlist" := VStr playlist_name]> (config w))).
Proof.
  unfold selected. destruct w; destruct disk_error0 as [[?|?]|];
    py_run; cbn [world_of]; py_world; done.
Qed.

(** With a track under the name, [on_playlist_change] is
    [play_song_at_index 0] from the selection made. *)
Lemma on_playlist_change_plays (w : World) (playlist_name : string) :
  Dict.get (playlists w) playlist_name <> [] ->
  on_playlist_change playlist_name w
  = play_song_at_index 0 (selected playlist_name w).
Proof.
  intros Hne.
  unfold on_playlist_change, _load_current_playlist, lookup_current_playlist, selected.
  destruct w. py_run.
  destruct (Dict.get playlists0 playlist_name) as [|track rest] eqn:Hget; [done|].
  destruct disk_error0 as [[?|?]|]; py_run; cbn [world_of]; py_world;
    rewrite !Hget; py_run; reflexivity.
Qed.

(** C4, amended. [on_playlist_change] does not look the name up before it
    acts. For every name it returns with that name as the active one,
    stored and written under [playlist], with the index at 0 and the track
    list that the catalog has for the name. When the name is not in the
    catalog this is no no-op: besides the above the track list is empty,
    the label reads "No files in playlist", and nothing is asked of the
    engine. When the catalog has a track under the name, the call is
    [play_song_at_index 0] on the selection made, so track 0 is loaded and
    played: [song_index] 0 is stored; an engine that answers the calls
    receives the whole script for track 0 (open, parse, ask the title, set
    the media, play, set the volume), the label shows the title of track 0
    and the button the pause glyph; without an engine the label shows the
    file name of track 0 and the button the pause glyph. *)
Theorem on_playlist_change_selects (w : World) (playlist_name : string) :
  exists w',
    on_playlist_change playlist_name w = Done tt w'
    /\ current_playlist_name w' = Name playlist_name
    /\ config w' !! "playlist" = Some (VStr playlist_name)
    /\ (disk_error w = None -> config_file w' = JsonFile (config w'))
    /\ current_index w' = 0
    /\ current_playlist_files w' = Dict.get (playlists w) playlist_name
    /\ (forall track rest,
          Dict.get (playlists w) playlist_name = track :: rest ->
          on_playlist_change playlist_name w
          = play_song_at_index 0 (selected playlist_name w)
          /\ config w' !! "song_index" = Some (VInt 0)
          /\ (if has_engine w
              then exists calls,
                     engine_calls w' = engine_calls w ++ MediaNew track :: calls
              else engine_calls w' = engine_calls w
                   /\ song_label w' = PyStr.basename track
                   /\ play_btn w' = GlyphPause)
          /\ (has_engine w = true ->
              forall volume reported,
                config w !! "volume" = Some volume ->
                engine_accepts (engine w) (engine_calls w) (play_script track volume) ->
                meta_title (engine w) (engine_calls w) track = Ok reported ->
                engine_calls w' = engine_calls w ++ play_script track volume
                /\ song_label w' = shown_title reported track
                /\ play_btn w' = GlyphPause))
    /\ (playlist_name ∉ Dict.keys (playlists w) ->
          current_playlist_files w' = []
          /\ song_label w' = "No files in playlist"
          /\ engine_calls w' = engine_calls w).
Proof.
  pose proof (dict_get_unknown (playlists w) playlist_name) as Hunk.
  destruct (Dict.get (playlists w) playlist_name) as [|track rest] eqn:Hget.
  - (* no track under that name *)
    clear Hunk.
    unfold on_playlist_change, _load_current_playlist, lookup_current_playlist.
    destruct w. py_run.
    destruct disk_error0 as [[?|?]|]; py_run; rewrite !Hget; py_run;
      eexists; (split; [reflexivity|]); py_world;
      (repeat split; try done; try apply lookup_insert_eq).
  - (* tracks: play the first *)
    assert (playlist_name ∈ Dict.keys (playlists w)) as Hin.
    { destruct (decide (playlist_name ∈ Dict.keys (playlists w))) as [|Hn]; [done|].
      discriminate (Hunk Hn). }
    assert (Dict.get (playlists w) playlist_name <> []) as Hne by (by rewrite Hget).
    pose proof (on_playlist_change_plays w playlist_name Hne) as Heq.
    destruct (selected_frame playlist_name w)
      as (Scfg & Sname & Sidx & Sfiles & Seng & Sengine & Scalls & Sde & Sfile).
    assert (current_playlist_files (selected playlist_name w) !! Z.to_nat 0 = Some track)
      as Hp by (by rewrite Sfiles, Hget).
    destruct (play_song_at_index_commits (selected playlist_name w) 0)
      as (w' & Hrun & Hc).
    { rewrite Sfiles, Hget. unfold len. simpl. lia. }
    destruct Hc as (Hi & Hcfg & Hfile & Hfiles & Hname & _ & _ & _ & _ & _ & _ & Hcalls).
    exists w'. rewrite Heq. split; [exact Hrun|].
    split; [by rewrite Hname|].
    split; [by rewrite Hcfg, lookup_insert_ne, Scfg, lookup_insert_eq|].
    split; [intros Hok; apply Hfile; by rewrite Sde|].
    split; [exact Hi|].
    split; [by rewrite Hfiles, Sfiles, Hget|].
    split; [|intros Hn; done].
    intros t r [= <- <-].
    split; [reflexivity|].
    split; [by rewrite Hcfg, lookup_insert_eq|].
    split.
    + rewrite Seng in Hcalls. destruct (has_engine w) eqn:He.
      * destruct Hcalls as (fp & cs & Hfp & Hcs). rewrite Hp in Hfp.
        injection Hfp as <-. exists cs. by rewrite Hcs, Scalls.
      * destruct (play_song_at_index_without_engine (selected playlist_name w) 0 track)
          as (w2 & Hrun2 & Hl & Hb & Hc2); [by rewrite Seng | lia | exact Hp |].
        rewrite Hrun in Hrun2. injection Hrun2 as <-.
        by rewrite Hc2, Scalls.
    + intros He volume reported Hvol Ha Hm.
      destruct (play_song_at_index_succeeds (selected playlist_name w) 0 track
                  volume reported)
        as (w2 & Hrun2 & Hl & Hb & Hc2).
      * by rewrite Seng.
      * lia.
      * exact Hp.
      * by rewrite Scfg, lookup_insert_ne.
      * by rewrite Sengine, Scalls.
      * by rewrite Sengine, Scalls.
      * rewrite Hrun in Hrun2. injection Hrun2 as <-.
        by rewrite Hc2, Scalls.
Qed.

(* ===================================================================== *)
(** * The end-of-track watcher *)
(* ===================================================================== *)

Lemma snoc_neq {A} (l : list A) (x : A) : l ++ [x] <> l.
Proof.
  intros H. apply (f_equal List.length) in H. rewrite length_app in H.
  simpl in H. lia.
Qed.

(** The watcher thread is started only for a player that has an engine. *)
Lemma start_player_monitor_needs_engine (w : World) :
  has_engine w = false -> start_player_monitor w = Done tt w.
Proof. intros H. unfold start_player_monitor. destruct w. py_run. by rewrite H. Qed.

(** C3. A tick of the end-of-track watcher on a player with an engine and
    a non-empty current playlist returns, and starts either one
    [next_song] or none. It starts one if and only if the engine reports
    not playing, both before and after the sleep, and then reports the
    state [Ended] or [NothingSpecial]. When the engine reports the state
    [Paused] no [next_song] is started. *)
Theorem watcher_tick_advances (w : World) :
  has_engine w = true ->
  current_playlist_files w <> [] ->
  exists w',
    monitor_player_tick w = Done tt w'
    /\ (advanced w w' \/ threads w' = threads w)
    /\ (advanced w w' <->
        poll_before w = Ok false /\ poll_after w = Ok false
        /\ (state_reported w = Ok Ended \/ state_reported w = Ok NothingSpecial))
    /\ (state_reported w = Ok Paused -> threads w' = threads w).
Proof.
  intros Heng Hne.
  unfold advanced, poll_before, poll_after, state_reported.
  unfold monitor_player_tick, player_is_playing, check_song_ended.
  destruct w. py_run. subst has_engine0.
  destruct current_playlist_files0 as [|f files]; [done|]. clear Hne.
  pose proof (snoc_neq threads0 NextSong) as Hneq. py_run.
  destruct (engine0 engine_calls0 IsPlaying) as [[|]|e1]; py_run.
  1, 3: eexists; (split; [reflexivity|]); py_world;
        split; [by right|]; split; [|done];
        split; [intros H; by symmetry in H | intros (? & _); done].
  destruct (engine0 (engine_calls0 ++ [IsPlaying]) IsPlaying) as [[|]|e2]; py_run.
  1, 3: eexists; (split; [reflexivity|]); py_world;
        split; [by right|]; split; [|done];
        split; [intros H; by symmetry in H | intros (_ & ? & _); done].
  cbn [is_empty negb andb]. py_run.
  destruct (engine0 ((engine_calls0 ++ [IsPlaying]) ++ [IsPlaying]) GetState)
    as [st|e3]; py_run.
  2: { eexists; (split; [reflexivity|]); py_world.
       split; [by right|]. split; [|done].
       split; [intros H; by symmetry in H | intros (_ & _ & [?|?]); done]. }
  destruct st; cbn [VlcState_eqb orb]; py_run;
    eexists; (split; [reflexivity|]); py_world;
    (split; [first [by left | by right]|]);
    (split; [|first [done | intros; done]]);
    (split;
     [ first [ intros _; repeat split; first [by left | by right | done]
             | intros H; by symmetry in H ]
     | first [ done | intros (_ & _ & [?|?]); done ] ]).
Qed.

Lemma watcher_tick_advances_witness :
  exists w',
    monitor_player_tick (watching [Ended]) = Done tt w'
    /\ (advanced (watching [Ended]) w' \/ threads w' = threads (watching [Ended]))
    /\ (advanced (watching [Ended]) w' <->
        poll_before (watching [Ended]) = Ok false
        /\ poll_after (watching [Ended]) = Ok false
        /\ (state_reported (watching [Ended]) = Ok Ended
            \/ state_reported (watching [Ended]) = Ok NothingSpecial))
    /\ (state_reported (watching [Ended]) = Ok Paused ->
        threads w' = threads (watching [Ended])).
Proof.
  apply (watcher_tick_advances (watching [Ended])).
  - reflexivity.
  - discriminate.
Defined.

(** The examples of the specification. An engine seen playing on two
    ticks and ended on the third: the three ticks start one [next_song].
    An engine seen playing and then paused: the ticks start none. *)
Example watcher_playing_playing_ended :
  threads (watching [Playing; Playing; Ended]) = [MonitorPlayer; MonitorTime]
  /\ threads (world_of (monitor_player 3 (watching [Playing; Playing; Ended])))
     = [MonitorPlayer; MonitorTime; NextSong].
Proof. vm_compute. split; reflexivity. Qed.

Example watcher_playing_paused_paused :
  threads (world_of (monitor_player 3 (watching [Playing; Paused; Paused])))
  = [MonitorPlayer; MonitorTime]
  /\ threads (world_of (monitor_player 9 (watching [Playing; Paused; Paused])))
     = [MonitorPlayer; MonitorTime].
Proof. vm_compute. split; reflexivity. Qed.

(* ===================================================================== *)
(** * [sorted] sorts *)
(* ===================================================================== *)

Lemma leb_trans (a b c : string) :
  String.leb a b = true -> String.leb b c = true -> String.leb a c = true.
Proof.
  intros H1%Is_true_true H2%Is_true_true. apply Is_true_true.
  exact (transitivity (R := String.le) H1 H2).
Qed.

Lemma ltb_leb (a b : string) : String.ltb a b = true -> String.leb a b = true.
Proof.
  unfold String.ltb, String.leb. destruct (String.compare a b); done.
Qed.

Lemma not_ltb_leb (a b : string) : String.ltb a b = false -> String.leb b a = true.
Proof.
  unfold String.ltb, String.leb. rewrite (String.compare_antisym a b).
  destruct (String.compare b a); done.
Qed.

Section SortedBy.
Context {A : Type} (key : A -> string).

Lemma insert_by_perm (x : A) (l : list A) :
  Permutation (PySort.insert_by key x l) (x :: l).
Proof.
  induction l as [|y l IH]; simpl; [reflexivity|].
  destruct (String.ltb (key y) (key x)); [|reflexivity].
  rewrite IH. apply perm_swap.
Qed.

Lemma insert_by_sorted (x : A) (l : list A) :
  sorted_on key l -> sorted_on key (PySort.insert_by key x l).
Proof.
  unfold sorted_on. induction 1 as [|y l Hs IH Hy]; simpl.
  - constructor; constructor.
  - destruct (String.ltb (key y) (key x)) eqn:E.
    + constructor; [exact IH|].
      rewrite (insert_by_perm x l). constructor; [by apply ltb_leb | exact Hy].
    + apply not_ltb_leb in E.
      constructor; [by constructor|].
      constructor; [exact E|].
      eapply Forall_impl; [exact Hy|]. intros z Hz. simpl in Hz.
      by eapply leb_trans.
Qed.

Lemma sorted_by_perm (l : list A) : Permutation (PySort.sorted_by key l) l.
Proof.
  induction l as [|x l IH]; simpl; [reflexivity|].
  unfold PySort.sorted_by in *. simpl. rewrite insert_by_perm. by constructor.
Qed.

Lemma sorted_by_sorted (l : list A) : sorted_on key (PySort.sorted_by key l).
Proof.
  induction l as [|x l IH]; [constructor|].
  unfold PySort.sorted_by in *. simpl. by apply insert_by_sorted.
Qed.

End SortedBy.

(* ===================================================================== *)
(** * [scan_playlists] *)
(* ===================================================================== *)

Lemma keys_set (d : Catalog) (k : string) (v : list string) :
  Dict.keys (Dict.set d k v)
  = if decide (k ∈ Dict.keys d) then Dict.keys d else Dict.keys d ++ [k].
Proof.
  unfold Dict.keys. induction d as [|[k' v'] d IH]; cbn [Dict.set map fst].
  - case_decide as H; [by apply elem_of_nil in H | reflexivity].
  - destruct (String.eqb_spec k' k) as [->|Hne]; cbn [map fst].
    + rewrite decide_True; [reflexivity | left].
    + rewrite IH. destruct (decide (k ∈ map fst d)) as [Hin|Hin].
      * rewrite decide_True; [reflexivity | by right].
      * rewrite decide_False; [reflexivity|].
        intros [->|?]%elem_of_cons; done.
Qed.

Lemma keys_set_prefix (d : Catalog) (k : string) (v : list string) :
  Dict.keys d `prefix_of` Dict.keys (Dict.set d k v).
Proof.
  rewrite keys_set. case_decide; [done | by apply prefix_app_r].
Qed.

Lemma tracks_sorted_set (lower : string -> string) (d : Catalog)
    (k : string) (v : list string) :
  tracks_sorted lower d -> sorted_nocase lower v ->
  tracks_sorted lower (Dict.set d k v).
Proof.
  unfold tracks_sorted. intros Hd Hv.
  induction Hd as [|[k' v'] d Hkv Hd IH]; simpl.
  - by repeat constructor.
  - destruct (String.eqb k' k); constructor; done.
Qed.

(** The first loop keeps the names it registers in the order of the
    entries it walks through. *)
Lemma scan_top_sorted (fs : FileSystem) (root : string) (entries : list string) :
  forall pl cat,
    sorted_plain entries ->
    sorted_plain (Dict.keys pl) ->
    (forall k e, k ∈ Dict.keys pl -> e ∈ entries -> String.leb k e = true) ->
    tracks_sorted (str_lower fs) pl ->
    scan_top fs root entries pl = Ok cat ->
    sorted_plain (Dict.keys cat) /\ tracks_sorted (str_lower fs) cat
    /\ (forall k, k ∈ Dict.keys cat -> k ∈ Dict.keys pl \/ k ∈ entries).
Proof.
  induction entries as [|entry entries IH]; intros pl cat Hent Hpl Hle Htr Hrun.
  - simpl in Hrun. injection Hrun as <-. repeat split; auto.
  - simpl in Hrun.
    assert (sorted_plain entries) as Hent'.
    { unfold sorted_plain, sorted_on in *. by apply StronglySorted_inv in Hent as []. }
    assert (forall e, e ∈ entries -> String.leb entry e = true) as Hhd.
    { unfold sorted_plain, sorted_on in *. apply StronglySorted_inv in Hent as [_ Hall].
      intros e He. by eapply Forall_forall in Hall. }
    assert (forall k e, k ∈ Dict.keys pl -> e ∈ entries -> String.leb k e = true)
      as Hle'.
    { intros k e ? ?. apply Hle; [done | by right]. }
    destruct (isdir fs (PyStr.path_join root entry)).
    2: { destruct (IH pl cat Hent' Hpl Hle' Htr Hrun) as (? & ? & Hk).
         repeat split; auto. intros k Hkc.
         destruct (Hk k Hkc); [by left | right; by right]. }
    destruct (listdir fs (PyStr.path_join root entry)) as [names|e]; [|discriminate].
    simpl in Hrun.
    destruct (is_empty (collect_audio (str_lower fs) (PyStr.path_join root entry) names [])).
    { destruct (IH pl cat Hent' Hpl Hle' Htr Hrun) as (? & ? & Hk).
      repeat split; auto. intros k Hkc.
      destruct (Hk k Hkc); [by left | right; by right]. }
    set (v := PySort.sorted_by (str_lower fs)
                (collect_audio (str_lower fs) (PyStr.path_join root entry) names [])) in *.
    destruct (IH (Dict.set pl entry v) cat Hent') as (? & ? & Hk); [| | |exact Hrun|].
    + rewrite keys_set. case_decide; [done|].
      unfold sorted_plain, sorted_on in *.
      apply StronglySorted_app_2; [| done | by repeat constructor].
      intros k e Hk ->%list_elem_of_singleton. apply Hle; [done | left].
    + intros k e Hk He. rewrite keys_set in Hk.
      case_decide; [by apply Hle'|].
      apply elem_of_app in Hk as [Hk | ->%list_elem_of_singleton].
      * by apply Hle'.
      * by apply Hhd.
    + apply tracks_sorted_set; [done | apply sorted_by_sorted].
    + repeat split; auto. intros k Hkc.
      destruct (Hk k Hkc) as [Hin|Hin]; [|right; by right].
      rewrite keys_set in Hin. case_decide; [by left|].
      apply elem_of_app in Hin as [Hin | ->%list_elem_of_singleton];
        [by left | right; left].
Qed.

(** The second loop adds names after those present and keeps every track
    list in order. *)
Lemma scan_sub_extends (fs : FileSystem) (entry entry_path : string)
    (subs : list string) :
  forall pl cat,
    scan_sub fs entry entry_path subs pl = Ok cat ->
    Dict.keys pl `prefix_of` Dict.keys cat
    /\ (tracks_sorted (str_lower fs) pl -> tracks_sorted (str_lower fs) cat).
Proof.
  induction subs as [|sub subs IH]; intros pl cat Hrun; simpl in Hrun.
  - injection Hrun as <-. done.
  - destruct (isdir fs (PyStr.path_join entry_path sub)); [|by apply IH].
    destruct (listdir fs (PyStr.path_join entry_path sub)) as [names|e];
      [|discriminate].
    simpl in Hrun.
    destruct (is_empty (collect_audio (str_lower fs) (PyStr.path_join entry_path sub) names []));
      [by apply IH|].
    apply IH in Hrun as [Hpre Htr]. split.
    + etransitivity; [apply keys_set_prefix | exact Hpre].
    + intros Hpl. apply Htr, tracks_sorted_set; [done | apply sorted_by_sorted].
Qed.

Lemma scan_nested_extends (fs : FileSystem) (root : string) (entries : list string) :
  forall pl cat,
    scan_nested fs root entries pl = Ok cat ->
    Dict.keys pl `prefix_of` Dict.keys cat
    /\ (tracks_sorted (str_lower fs) pl -> tracks_sorted (str_lower fs) cat).
Proof.
  induction entries as [|entry entries IH]; intros pl cat Hrun; simpl in Hrun.
  - injection Hrun as <-. done.
  - destruct (isdir fs (PyStr.path_join root entry)); [|by apply IH].
    destruct (listdir fs (PyStr.path_join root entry)) as [subs|e]; [|discriminate].
    simpl in Hrun.
    destruct (scan_sub fs entry (PyStr.path_join root entry) (PySort.sorted subs) pl)
      as [pl'|e] eqn:Hsub; [|discriminate].
    simpl in Hrun.
    apply scan_sub_extends in Hsub as [Hpre1 Htr1].
    apply IH in Hrun as [Hpre2 Htr2]. split.
    + by etransitivity.
    + auto.
Qed.

Example scan_sample :
  scan_playlists sample_fs "/m"
  = Ok [("B", ["/m/B/a.MP3"; "/m/B/B.mp3"]);
        ("a", ["/m/a/c.ogg"]);
        ("a/live", ["/m/a/live/x.flac"])].
Proof. reflexivity. Qed.

(** C5, as stated, fails: on a root that is a directory and cannot be
    read, [scan_playlists] raises the error of [os.listdir]. *)
Lemma scan_unreadable_root_raises :
  isdir locked_fs "/m" = true
  /\ listdir locked_fs "/m" = Err (OSError "Permission denied")
  /\ scan_playlists locked_fs "/m" = Err (OSError "Permission denied").
Proof. repeat split. Qed.

(** C5, amended. For every root path that does not exist, or is not a
    directory, [scan_playlists] returns the empty catalog and raises
    nothing, whatever listing the path would do. *)
Theorem scan_missing_root (fsys : FileSystem) (root : string) :
  isdir fsys root = false ->
  scan_playlists fsys root = Ok [].
Proof.
  intros H. unfold scan_playlists. by rewrite H.
Qed.

Lemma scan_missing_root_witness :
  isdir sample_fs "/nowhere" = false
  /\ listdir sample_fs "/nowhere" = Err (OSError "Not a directory")
  /\ scan_playlists sample_fs "/nowhere" = Ok [].
Proof.
  split; [reflexivity|]. split; [reflexivity|].
  apply (scan_missing_root sample_fs "/nowhere"). reflexivity.
Defined.

(** C6, as stated, fails: for the sample directory with the folders [a]
    and [B], the top-level names come out as [B], [a], which is the order
    of the character codes and not the order up to case. *)
Lemma scan_top_level_names_case_sensitive :
  scan_playlists sample_fs "/m"
  = Ok [("B", ["/m/B/a.MP3"; "/m/B/B.mp3"]);
        ("a", ["/m/a/c.ogg"]);
        ("a/live", ["/m/a/live/x.flac"])]
  /\ scan_top_level sample_fs "/m"
     = Ok [("B", ["/m/B/a.MP3"; "/m/B/B.mp3"]); ("a", ["/m/a/c.ogg"])]
  /\ ~ sorted_nocase (str_lower sample_fs) ["B"; "a"]
  /\ ~ sorted_nocase (str_lower sample_fs) ["B"; "a"; "a/live"].
Proof.
  split; [reflexivity|]. split; [reflexivity|].
  unfold sorted_nocase, sorted_on.
  split; intros H; apply StronglySorted_inv in H as [_ H];
    apply Forall_inv in H; vm_compute in H; discriminate H.
Qed.

(** C6, amended. When [scan_playlists] returns a catalog, the names of the
    top-level playlists come first in it, in plain sorted order: the
    case-sensitive order of character codes in which [sorted(os.listdir(root))]
    walks the folders, each name being one of the entries of the root. The
    track list of every playlist, nested ones included, is sorted by path up
    to case. *)
Theorem scan_playlists_order (fsys : FileSystem) (root : string) (cat : Catalog) :
  scan_playlists fsys root = Ok cat ->
  exists top : Catalog,
    scan_top_level fsys root = Ok top
    /\ Dict.keys top `prefix_of` Dict.keys cat
    /\ sorted_plain (Dict.keys top)
    /\ (forall entries k,
          isdir fsys root = true -> listdir fsys root = Ok entries ->
          k ∈ Dict.keys top -> k ∈ entries)
    /\ Forall (fun kv => sorted_nocase (str_lower fsys) (snd kv)) cat.
Proof.
  unfold scan_playlists, scan_top_level. intros Hrun.
  destruct (isdir fsys root); simpl in *.
  2: { injection Hrun as <-. exists [].
       repeat split; try done; constructor. }
  destruct (listdir fsys root) as [entries|e]; [|discriminate].
  simpl in *.
  destruct (scan_top fsys root (PySort.sorted entries) []) as [top|e] eqn:Htop;
    [|discriminate].
  simpl in Hrun.
  apply scan_top_sorted in Htop as (Hs & Htr & Hk).
  - apply scan_nested_extends in Hrun as [Hpre Htr'].
    exists top. repeat split; auto.
    + intros entries' k _ [= <-] Hin.
      destruct (Hk k Hin) as [Hnil|Hin']; [by apply elem_of_nil in Hnil|].
      apply list_elem_of_In. apply list_elem_of_In in Hin'.
      eapply Permutation_in; [apply sorted_by_perm | exact Hin'].
    + by apply Htr'.
  - apply sorted_by_sorted.
  - constructor.
  - intros k e Hnil. by apply elem_of_nil in Hnil.
  - constructor.
Qed.

Lemma scan_playlists_order_witness :
  exists top : Catalog,
    scan_top_level sample_fs "/m" = Ok top
    /\ Dict.keys top `prefix_of`
       Dict.keys [("B", ["/m/B/a.MP3"; "/m/B/B.mp3"]);
                  ("a", ["/m/a/c.ogg"]);
                  ("a/live", ["/m/a/live/x.flac"])]
    /\ sorted_plain (Dict.keys top)
    /\ (forall entries k,
          isdir sample_fs "/m" = true -> listdir sample_fs "/m" = Ok entries ->
          k ∈ Dict.keys top -> k ∈ entries)
    /\ Forall (fun kv => sorted_nocase (str_lower sample_fs) (snd kv))
         [("B", ["/m/B/a.MP3"; "/m/B/B.mp3"]);
          ("a", ["/m/a/c.ogg"]);
          ("a/live", ["/m/a/live/x.flac"])].
Proof.
  apply (scan_playlists_order sample_fs "/m"). reflexivity.
Defined.

(* ===================================================================== *)
(** * The index of a session *)
(* ===================================================================== *)

Lemma commits_session_ok (idx : Z) (w w' : World) :
  0 <= idx < len (current_playlist_files w) ->
  is_Some (config w !! "shuffle") ->
  commits idx w w' ->
  session_ok w'.
Proof.
  intros Hidx Hsh (Hi & Hcfg & _ & Hfiles & _). split.
  - unfold index_valid. rewrite Hfiles, Hi.
    destruct (current_playlist_files w); [unfold len in Hidx; simpl in Hidx; lia|].
    exact Hidx.
  - rewrite Hcfg, lookup_insert_ne by done. exact Hsh.
Qed.

Lemma play_song_at_index_ok (idx : Z) (w : World) :
  session_ok w -> exists w', play_song_at_index idx w = Done tt w' /\ session_ok w'.
Proof.
  intros Hok.
  destruct (decide (0 <= idx < len (current_playlist_files w))) as [Hin|Hout].
  - destruct (play_song_at_index_commits w idx Hin) as (w' & Hrun & Hc).
    exists w'. split; [exact Hrun|].
    eapply commits_session_ok; [exact Hin | apply Hok | exact Hc].
  - exists w. split; [|exact Hok]. apply play_song_at_index_skips. lia.
Qed.

(** [next_song] and [prev_song] both replace the index by one of the
    current playlist and hand it to [play_song_at_index]. *)
Lemma step_song_ok (w : World) (v : PyVal) (idx : Z) :
  config w !! "shuffle" = Some v ->
  current_playlist_files w <> [] ->
  0 <= idx < len (current_playlist_files w) ->
  exists w', play_song_at_index idx (set_current_index idx w) = Done tt w'
             /\ session_ok w'.
Proof.
  intros Hsh Hne Hidx.
  destruct (play_song_at_index_commits (set_current_index idx w) idx)
    as (w' & Hrun & Hc); [destruct w; exact Hidx|].
  exists w'. split; [exact Hrun|].
  eapply commits_session_ok; [| |exact Hc]; destruct w; py_world; eauto.
Qed.

Lemma next_song_ok (draw : Z) (w : World) :
  session_ok w -> exists w', next_song draw w = Done tt w' /\ session_ok w'.
Proof.
  intros Hok. destruct (current_playlist_files w) as [|f files] eqn:Hfiles.
  { exists w. split; [|exact Hok]. unfold next_song. py_run. by rewrite Hfiles. }
  destruct Hok as [Hiv [v Hsh]].
  assert (current_playlist_files w <> []) as Hne by (by rewrite Hfiles).
  pose proof (playlist_length_pos w Hne) as HL.
  destruct (truthy v) eqn:Hv.
  - destruct (step_song_ok w v (randrange draw (len (current_playlist_files w))))
      as (w' & Hrun & Hok'); [done | done | by apply Z.mod_pos_bound |].
    exists w'. split; [|exact Hok']. rewrite <- Hrun.
    unfold next_song. destruct w. py_run. py_world. subst.
    py_run. rewrite Hsh. py_run. rewrite Hv. reflexivity.
  - destruct (step_song_ok w v ((current_index w + 1) mod len (current_playlist_files w)))
      as (w' & Hrun & Hok'); [done | done | by apply Z.mod_pos_bound |].
    exists w'. split; [|exact Hok']. rewrite <- Hrun.
    unfold next_song. destruct w. py_run. py_world. subst.
    py_run. rewrite Hsh. py_run. rewrite Hv. reflexivity.
Qed.

Lemma prev_song_ok (draw : Z) (w : World) :
  session_ok w -> exists w', prev_song draw w = Done tt w' /\ session_ok w'.
Proof.
  intros Hok. destruct (current_playlist_files w) as [|f files] eqn:Hfiles.
  { exists w. split; [|exact Hok]. unfold prev_song. py_run. by rewrite Hfiles. }
  destruct Hok as [Hiv [v Hsh]].
  assert (current_playlist_files w <> []) as Hne by (by rewrite Hfiles).
  pose proof (playlist_length_pos w Hne) as HL.
  destruct (truthy v) eqn:Hv.
  - destruct (step_song_ok w v (randrange draw (len (current_playlist_files w))))
      as (w' & Hrun & Hok'); [done | done | by apply Z.mod_pos_bound |].
    exists w'. split; [|exact Hok']. rewrite <- Hrun.
    unfold prev_song. destruct w. py_run. py_world. subst.
    py_run. rewrite Hsh. py_run. rewrite Hv. reflexivity.
  - destruct (step_song_ok w v ((current_index w - 1) mod len (current_playlist_files w)))
      as (w' & Hrun & Hok'); [done | done | by apply Z.mod_pos_bound |].
    exists w'. split; [|exact Hok']. rewrite <- Hrun.
    unfold prev_song. destruct w. py_run. py_world. subst.
    py_run. rewrite Hsh. py_run. rewrite Hv. reflexivity.
Qed.

(** [_load_current_playlist] on a world whose index is 0, or is an
    index of the playlist it loads, leaves a valid index. *)
Lemma load_current_playlist_ok (w : World) (name : string) :
  current_playlist_name w = Name name ->
  is_Some (config w !! "shuffle") ->
  (Dict.get (playlists w) name <> [] ->
   0 <= current_index w < len (Dict.get (playlists w) name)) ->
  exists w', _load_current_playlist w = Done tt w' /\ session_ok w'
             /\ threads w' = threads w /\ has_engine w' = has_engine w.
Proof.
  intros Hname Hsh Hidx.
  unfold _load_current_playlist, lookup_current_playlist.
  destruct w. py_run. subst. py_run.
  destruct (Dict.get playlists0 name) as [|f files] eqn:Hget; py_run.
  - eexists. split; [reflexivity|]. unfold session_ok, index_valid. py_world. done.
  - match goal with
    | |- context [play_song_at_index ?i ?w0] =>
        destruct (play_song_at_index_commits w0 i) as (w' & -> & Hc);
          [py_world; by apply Hidx|]
    end.
    exists w'. split; [reflexivity|]. split.
    + eapply commits_session_ok; [| |exact Hc]; py_world; [by apply Hidx | done].
    + destruct Hc as (_ & _ & _ & _ & _ & _ & _ & ? & _ & _ & ? & _). done.
Qed.

Lemma on_playlist_change_ok (name : string) (w : World) :
  session_ok w -> exists w', on_playlist_change name w = Done tt w' /\ session_ok w'.
Proof.
  intros [_ Hsh]. unfold on_playlist_change. destruct w. py_run.
  destruct disk_error0 as [[?|?]|]; py_run;
    match goal with
    | |- context [_load_current_playlist ?w0] =>
        destruct (load_current_playlist_ok w0 name) as (w' & -> & Hok & _)
    end; py_world; try done;
    try (rewrite lookup_insert_ne by done; exact Hsh);
    try (intros Hne; unfold len; destruct (Dict.get playlists0 name); [done | simpl; lia]);
    eauto.
Qed.

Lemma run_op_ok (o : Op) (w : World) :
  session_ok w -> exists w', run_op o w = Done tt w' /\ session_ok w'.
Proof.
  destruct o; simpl.
  - apply on_playlist_change_ok.
  - apply next_song_ok.
  - apply prev_song_ok.
  - apply play_song_at_index_ok.
Qed.

Lemma run_ops_ok (ops : list Op) :
  forall w, session_ok w -> exists w', run_ops ops w = Done tt w' /\ session_ok w'.
Proof.
  induction ops as [|o ops IH]; intros w Hok; simpl.
  - by exists w.
  - destruct (run_op_ok o w Hok) as (w1 & Hrun & Hok1).
    destruct (IH w1 Hok1) as (w2 & Hrun2 & Hok2).
    exists w2. split; [|exact Hok2]. unfold bind. by rewrite Hrun.
Qed.

Lemma loaded_config_defaults (file : ConfigFile) (key : string) :
  is_Some (default_config !! key) -> is_Some (loaded_config file !! key).
Proof.
  intros Hd. destruct file as [| |m]; simpl; try exact Hd.
  apply lookup_union_is_Some. by right.
Qed.

Lemma loaded_index_nonneg (file : ConfigFile) (n : Z) :
  stored_index_nonneg file ->
  loaded_config file !! "song_index" = Some (VInt n) -> 0 <= n.
Proof.
  intros Hs Hl. destruct file as [| |m]; simpl in Hl.
  1, 2: vm_compute in Hl; injection Hl as <-; lia.
  apply lookup_union_Some_raw in Hl as [Hm | [_ Hd]].
  - by apply (Hs m n).
  - vm_compute in Hd. injection Hd as <-. lia.
Qed.

Lemma load_current_playlist_unset (w : World) :
  current_playlist_name w = Unset ->
  _load_current_playlist w = Raised (AttributeError "current_playlist_name") w.
Proof.
  intros H. unfold _load_current_playlist, lookup_current_playlist.
  py_run. by rewrite H.
Qed.

Lemma index_read_nonneg (file : ConfigFile) (n : Z) :
  stored_index_nonneg file ->
  default (VInt 0) (loaded_config file !! "song_index") = VInt n -> 0 <= n.
Proof.
  intros Hs Hd. destruct (loaded_config file !! "song_index") as [v|] eqn:Hl.
  - simpl in Hd. subst v. by apply (loaded_index_nonneg file).
  - simpl in Hd. injection Hd as <-. lia.
Qed.

(** The threads that the start adds do not touch the index. *)
Lemma monitors_keep_session (w : World) :
  session_ok w ->
  forall w', (start_player_monitor;; start_time_monitor) w = Done tt w' ->
             session_ok w'.
Proof.
  intros Hok w'. unfold start_player_monitor, start_time_monitor.
  destruct w. py_run.
  destruct has_engine0, player_monitor_running0, time_monitor_running0; py_run;
    intros [= <-]; exact Hok.
Qed.

(** The part of [__init__] from [_load_current_playlist] on. *)
Lemma init_tail_ok (w : World) (name : string) :
  current_playlist_name w = Name name ->
  is_Some (config w !! "shuffle") ->
  (Dict.get (playlists w) name <> [] ->
   0 <= current_index w < len (Dict.get (playlists w) name)) ->
  forall w',
    (_load_current_playlist;; start_player_monitor;; start_time_monitor) w
    = Done tt w' ->
    session_ok w'.
Proof.
  intros Hname Hsh Hidx w'.
  destruct (load_current_playlist_ok w name Hname Hsh Hidx) as (w1 & Hrun & Hok & _).
  unfold bind at 1. rewrite Hrun.
  by apply monitors_keep_session.
Qed.

Lemma init_ok fsys root file err vlc eng :
  stored_index_nonneg file ->
  forall w, __init__ (boot fsys root file err vlc eng) = Done tt w -> session_ok w.
Proof.
  intros Hs.
  pose proof (fun n => index_read_nonneg file n Hs) as Hidx.
  pose proof (loaded_config_defaults file "shuffle" ltac:(by eexists)) as Hsh.
  unfold __init__, load_config, setup_window, build_ui, boot.
  unfold lookup_current_playlist, as_int.
  py_run. fold (loaded_config file). py_run.
  destruct (scan_playlists fsys root) as [found|e]; [|init_raised].
  py_run.
  destruct (PySort.sorted (Dict.keys found)) as [|first rest] eqn:Hnames; py_run.
  - (* no playlist: the name is never assigned *)
    destruct (default (VInt 0) (loaded_config file !! "song_index")) as [|b|n|s];
      try init_raised; py_run.
    all: match goal with
         | |- context [if ?c then _ else _] => destruct c
         end; py_run.
    all: destruct (loaded_config file !! "pinned") as [p|] eqn:Hp;
           [|init_raised]; py_run; rewrite ?Hp; py_run.
    all: destruct (truthy p); py_run.
    all: rewrite load_current_playlist_unset by reflexivity; init_raised.
  - (* some playlist: a name is chosen and its tracks are loaded *)
    assert (forall l : list string, l <> [] -> 0 <= 0 < len l) as Hzero.
    { intros [|x l] Hl; [done | unfold len; simpl; lia]. }
    destruct (default (VStr "") (loaded_config file !! "playlist")) as [|b|n|s];
      [| | |destruct (existsb (String.eqb s) (first :: rest))]; py_run.
    all: destruct (default (VInt 0) (loaded_config file !! "song_index"))
           as [|b'|n'|s'] eqn:Hread;
         [init_raised| destruct b' | specialize (Hidx n' eq_refl) |init_raised];
         py_run; cbn [Z.b2z].
    all: rewrite Z.geb_leb;
         match goal with
         | |- context [if ?a <=? ?b then _ else _] => destruct (Z.leb_spec a b)
         end; py_run.
    all: destruct (loaded_config file !! "pinned") as [p|] eqn:Hp;
           [|init_raised]; py_run; rewrite ?Hp; py_run.
    all: destruct (truthy p); py_run.
    all: intros w Hrun;
         match type of Hrun with
         | context [Name ?nm] =>
             eapply (init_tail_ok _ nm); [| | |exact Hrun]
         end; py_world; try done; try (intros; lia); try apply Hzero.
Qed.

(** A start on a music directory without playlists does not return:
    [current_playlist_name] is read before anything is assigned to it. *)
Example startup_without_playlists :
  scan_playlists bare_fs "/m" = Ok []
  /\ exists w, __init__ (boot bare_fs "/m" NoFile None true broken_engine)
               = Raised (AttributeError "current_playlist_name") w.
Proof. split; [reflexivity|]. eexists. vm_compute. reflexivity. Qed.

(** C2, at the failing input. The player is started on the sample
    directory with a configuration file whose [song_index] is -1. The
    start returns; the current playlist has two tracks; the index is -1,
    which is not an index of the playlist; nothing was asked of the engine
    and the label still has the text it was created with. The check of
    [__init__] replaces an index at or beyond the length of the playlist
    and lets a negative one through, and [play_song_at_index], which does
    check both bounds, then ignores it. *)
Theorem startup_keeps_negative_index :
  returned (__init__ (boot sample_fs "/m" negative_index None true
                        (steady_engine true Playing))) = true
  /\ current_playlist_files (started negative_index (steady_engine true Playing))
     = ["/m/B/a.MP3"; "/m/B/B.mp3"]
  /\ current_index (started negative_index (steady_engine true Playing)) = -1
  /\ ~ index_valid (started negative_index (steady_engine true Playing))
  /\ engine_calls (started negative_index (steady_engine true Playing)) = []
  /\ song_label (started negative_index (steady_engine true Playing))
     = "No song playing".
Proof.
  split; [vm_compute; reflexivity|].
  split; [vm_compute; reflexivity|].
  split; [vm_compute; reflexivity|].
  split.
  - unfold index_valid.
    replace (current_playlist_files (started negative_index (steady_engine true Playing)))
      with ["/m/B/a.MP3"; "/m/B/B.mp3"] by (vm_compute; reflexivity).
    replace (current_index (started negative_index (steady_engine true Playing)))
      with (-1) by (vm_compute; reflexivity).
    lia.
  - split; vm_compute; reflexivity.
Qed.

(** X1. Apart from that input the index is always valid. When the
    configuration file holds no negative [song_index] and the start
    returns, every sequence of [on_playlist_change], [next_song],
    [prev_song] and [play_song_at_index] calls returns, and leaves an index
    of the current playlist, or, when the current playlist has no track,
    the label "No files in playlist". *)
Theorem session_index_valid
    (fsys : FileSystem) (root : string) (file : ConfigFile) (err : option WriteError)
    (vlc : bool) (eng : Engine) (w0 : World) (ops : list Op) :
  stored_index_nonneg file ->
  __init__ (boot fsys root file err vlc eng) = Done tt w0 ->
  exists w, run_ops ops w0 = Done tt w /\ index_valid w.
Proof.
  intros Hs Hinit.
  destruct (run_ops_ok ops w0 (init_ok _ _ _ _ _ _ Hs w0 Hinit)) as (w & Hrun & Hok).
  exists w. split; [exact Hrun | apply Hok].
Qed.

Lemma session_index_valid_witness :
  exists w,
    run_ops [Next 3; PlayAt 9; SelectPlaylist "Z"; Prev 1; SelectPlaylist "a"; PlayAt 0]
      (started NoFile broken_engine) = Done tt w
    /\ index_valid w.
Proof.
  apply (session_index_valid sample_fs "/m" NoFile None true broken_engine).
  - intros m n H. discriminate H.
  - vm_compute. reflexivity.
Defined.

(** X2. A start that finds no playlist never returns: with an empty catalog
    nothing is assigned to [current_playlist_name], and
    [_load_current_playlist] reads it. *)
Theorem startup_without_playlist_raises
    (fsys : FileSystem) (root : string) (file : ConfigFile) (err : option WriteError)
    (vlc : bool) (eng : Engine) :
  scan_playlists fsys root = Ok [] ->
  returned (__init__ (boot fsys root file err vlc eng)) = false.
Proof.
  intros Hscan.
  unfold __init__, load_config, setup_window, build_ui, boot.
  unfold lookup_current_playlist, as_int.
  py_run. fold (loaded_config file). py_run. rewrite Hscan. py_run.
  change (PySort.sorted (Dict.keys [])) with (@nil string). py_run.
  destruct (default (VInt 0) (loaded_config file !! "song_index")) as [|b|n|s];
    try reflexivity; py_run.
  all: match goal with
       | |- context [if ?c then _ else _] => destruct c
       end; py_run.
  all: destruct (loaded_config file !! "pinned") as [p|] eqn:Hp;
         [|reflexivity]; py_run; rewrite ?Hp; py_run.
  all: destruct (truthy p); py_run.
  all: by rewrite load_current_playlist_unset.
Qed.

Lemma startup_without_playlist_raises_witness :
  scan_playlists bare_fs "/m" = Ok []
  /\ returned (__init__ (boot bare_fs "/m" NoFile None true broken_engine)) = false.
Proof.
  split; [reflexivity|].
  apply (startup_without_playlist_raises bare_fs "/m" NoFile None true broken_engine).
  reflexivity.
Defined.

(* ===================================================================== *)
(** * Volume *)
(* ===================================================================== *)

(** X5. [volume_up] stores the volume plus ten, capped at 100, and
    [volume_down] the volume minus ten, floored at 0, and nothing else of
    the configuration changes; this holds in the world the call leaves
    whether or not the engine accepts the new volume. A volume of
    [[0, 100]] stays in [[0, 100]]. *)
Theorem volume_steps_clamp (w : World) (v : Z) :
  config w !! "volume" = Some (VInt v) ->
  config (world_of (volume_up w)) = <["volume" := VInt (Z.min 100 (v + 10))]> (config w)
  /\ config (world_of (volume_down w))
     = <["volume" := VInt (Z.max 0 (v - 10))]> (config w)
  /\ (0 <= v <= 100 ->
      0 <= Z.min 100 (v + 10) <= 100 /\ 0 <= Z.max 0 (v - 10) <= 100).
Proof.
  intros Hv. split; [|split; [|lia]].
  - destruct w. py_more. rewrite Hv. py_more.
    destruct has_engine0; py_more.
    + destruct (engine0 _ _) as [[]|e]; py_more; [|reflexivity].
      destruct disk_error0 as [[?|?]|]; reflexivity.
    + destruct disk_error0 as [[?|?]|]; reflexivity.
  - destruct w. py_more. rewrite Hv. py_more.
    destruct has_engine0; py_more.
    + destruct (engine0 _ _) as [[]|e]; py_more; [|reflexivity].
      destruct disk_error0 as [[?|?]|]; reflexivity.
    + destruct disk_error0 as [[?|?]|]; reflexivity.
Qed.

Lemma volume_steps_clamp_witness :
  config (world_of (volume_up (started NoFile broken_engine)))
  = <["volume" := VInt (Z.min 100 (80 + 10))]> (config (started NoFile broken_engine))
  /\ config (world_of (volume_down (started NoFile broken_engine)))
     = <["volume" := VInt (Z.max 0 (80 - 10))]> (config (started NoFile broken_engine))
  /\ (0 <= 80 <= 100 ->
      0 <= Z.min 100 (80 + 10) <= 100 /\ 0 <= Z.max 0 (80 - 10) <= 100).
Proof.
  apply (volume_steps_clamp (started NoFile broken_engine) 80). reflexivity.
Defined.

(** X6. What a volume step does besides. When the engine accepts the new
    volume, or there is no engine, the step returns, the engine has been
    told the new volume (one call, when there is an engine) and the
    configuration is written, when the file can be. When the engine raises
    on the new volume the step raises that exception: it is not caught, and
    the new volume is in the configuration but not in the file. *)
Theorem volume_up_effects (w : World) (v : Z) :
  config w !! "volume" = Some (VInt v) ->
  let new_vol := VInt (Z.min 100 (v + 10)) in
  (has_engine w = false ->
   exists w', volume_up w = Done tt w' /\ engine_calls w' = engine_calls w
              /\ (disk_error w = None -> config_file w' = JsonFile (config w')))
  /\ (has_engine w = true ->
      engine w (engine_calls w) (AudioSetVolume new_vol) = Ok tt ->
      exists w', volume_up w = Done tt w'
                 /\ engine_calls w' = engine_calls w ++ [AudioSetVolume new_vol]
                 /\ (disk_error w = None -> config_file w' = JsonFile (config w')))
  /\ (forall e, has_engine w = true ->
      engine w (engine_calls w) (AudioSetVolume new_vol) = Err e ->
      exists w', volume_up w = Raised e w'
                 /\ config w' !! "volume" = Some new_vol
                 /\ config_file w' = config_file w).
Proof.
  intros Hv new_vol. subst new_vol. destruct w. py_world.
  split; [|split].
  - intros ->. py_more. rewrite Hv. py_more.
    destruct disk_error0 as [[?|?]|]; py_more; eexists; (split; [reflexivity|]); py_world; done.
  - intros -> Hok. py_more. rewrite Hv. py_more. rewrite Hok. py_more.
    destruct disk_error0 as [[?|?]|]; py_more; eexists; (split; [reflexivity|]); py_world; done.
  - intros e -> Herr. py_more. rewrite Hv. py_more. rewrite Herr. py_more.
    eexists; (split; [reflexivity|]); py_world.
    split; [apply lookup_insert_eq | reflexivity].
Qed.

Lemma volume_up_effects_witness :
  exists w', volume_up (started NoFile broken_engine) = Done tt w'
             /\ engine_calls w'
                = engine_calls (started NoFile broken_engine)
                  ++ [AudioSetVolume (VInt (Z.min 100 (80 + 10)))]
             /\ (disk_error (started NoFile broken_engine) = None ->
                 config_file w' = JsonFile (config w')).
Proof.
  destruct (volume_up_effects (started NoFile broken_engine) 80) as (_ & H & _);
    [reflexivity|].
  apply H; reflexivity.
Defined.

(* ===================================================================== *)
(** * Play and pause *)
(* ===================================================================== *)

(** X7. [toggle_play] asks the engine whether it is playing and then
    pauses it, or else tells it to play; it shows the play glyph after a
    pause and the pause glyph after a play. It makes no other call: it
    never loads a track, even when nothing is loaded. It leaves the
    configuration, the file, the catalog, the selection and the index as
    they are, also when the engine raises. Without an engine it does
    nothing. *)
Theorem toggle_play_effects (w : World) :
  same_session w (world_of (toggle_play w))
  /\ threads (world_of (toggle_play w)) = threads w
  /\ (has_engine w = false -> toggle_play w = Done tt w)
  /\ (has_engine w = true ->
      engine w (engine_calls w) IsPlaying = Ok true ->
      engine w (engine_calls w ++ [IsPlaying]) Pause = Ok tt ->
      returned (toggle_play w) = true
      /\ engine_calls (world_of (toggle_play w)) = engine_calls w ++ [IsPlaying; Pause]
      /\ play_btn (world_of (toggle_play w)) = GlyphPlay)
  /\ (has_engine w = true ->
      engine w (engine_calls w) IsPlaying = Ok false ->
      engine w (engine_calls w ++ [IsPlaying]) Play = Ok tt ->
      returned (toggle_play w) = true
      /\ engine_calls (world_of (toggle_play w)) = engine_calls w ++ [IsPlaying; Play]
      /\ play_btn (world_of (toggle_play w)) = GlyphPause)
  /\ (exists calls,
        engine_calls (world_of (toggle_play w)) = engine_calls w ++ calls
        /\ (calls = [] \/ calls = [IsPlaying] \/ calls = [IsPlaying; Pause]
            \/ calls = [IsPlaying; Play])).
Proof.
  unfold same_session. destruct w. py_world.
  split; [|split; [|split; [|split; [|split]]]].
  - py_more. destruct has_engine0; py_more; [|done].
    destruct (engine0 engine_calls0 IsPlaying) as [[|]|e]; py_more; [| |done];
      destruct (engine0 _ _) as [[]|e]; py_more; done.
  - py_more. destruct has_engine0; py_more; [|done].
    destruct (engine0 engine_calls0 IsPlaying) as [[|]|e]; py_more; [| |done];
      destruct (engine0 _ _) as [[]|e]; py_more; done.
  - intros ->. reflexivity.
  - intros -> H1 H2. py_more. rewrite H1. py_more. rewrite H2. py_more.
    by rewrite <- app_assoc.
  - intros -> H1 H2. py_more. rewrite H1. py_more. rewrite H2. py_more.
    by rewrite <- app_assoc.
  - py_more. destruct has_engine0; py_more.
    2: { exists []. split; [by rewrite app_nil_r | by left]. }
    destruct (engine0 engine_calls0 IsPlaying) as [[|]|e]; py_more.
    3: { exists [IsPlaying]. split; [done | right; by left]. }
    + exists [IsPlaying; Pause].
      destruct (engine0 _ _) as [[]|e]; py_more;
        (split; [by rewrite <- app_assoc | right; right; by left]).
    + exists [IsPlaying; Play].
      destruct (engine0 _ _) as [[]|e]; py_more;
        (split; [by rewrite <- app_assoc | right; right; by right]).
Qed.

(* ===================================================================== *)
(** * The watchers *)
(* ===================================================================== *)

(** X8. No tick of a watcher raises, whatever the engine does: a tick of
    the end-of-track watcher and a tick of the time watcher both return,
    for every world, and leave the configuration, the file, the catalog,
    the selection, the index and the title as they are. *)
Theorem watcher_ticks_return (w : World) :
  (exists w', monitor_player_tick w = Done tt w' /\ same_session w w')
  /\ (exists w', monitor_time_tick w = Done tt w' /\ same_session w w'
                 /\ threads w' = threads w).
Proof.
  unfold same_session. destruct w. split.
  - unfold monitor_player_tick, check_song_ended. py_more.
    destruct has_engine0; py_more.
    2: { eexists. split; [reflexivity|]. py_world. done. }
    destruct (engine0 engine_calls0 IsPlaying) as [[|]|e1]; py_more;
      try (eexists; split; [reflexivity|]; py_world; done).
    destruct (engine0 _ IsPlaying) as [[|]|e2]; py_more;
      try (eexists; split; [reflexivity|]; py_world; done).
    destruct current_playlist_files0 as [|f files]; py_more;
      try (eexists; split; [reflexivity|]; py_world; done).
    destruct (engine0 _ GetState) as [st|e3]; py_more;
      try (eexists; split; [reflexivity|]; py_world; done).
    destruct st; cbn [VlcState_eqb]; py_more;
      eexists; (split; [reflexivity|]); py_world; done.
  - py_more.
    destruct has_engine0; py_more;
      try (eexists; split; [reflexivity|]; py_world; done).
    destruct current_playlist_files0 as [|f files]; py_more;
      try (eexists; split; [reflexivity|]; py_world; done).
    destruct (engine0 _ GetTime) as [t|e]; py_more;
      eexists; (split; [reflexivity|]); py_world; done.
Qed.

(** X9. A tick of the time watcher on a player with an engine and a
    current playlist asks the engine for the time once. When the engine
    answers, the time label shows [format_time] of the answer; when it
    raises, the label stays and a line is printed. Without a current
    playlist the engine is not asked and the label stays. *)
Theorem time_tick_shows_time (w : World) :
  has_engine w = true ->
  (current_playlist_files w <> [] ->
   forall t, engine w (engine_calls w) GetTime = Ok t ->
     time_label (world_of (monitor_time_tick w)) = format_time t
     /\ engine_calls (world_of (monitor_time_tick w)) = engine_calls w ++ [GetTime])
  /\ (current_playlist_files w <> [] ->
      forall e, engine w (engine_calls w) GetTime = Err e ->
        time_label (world_of (monitor_time_tick w)) = time_label w
        /\ stdout (world_of (monitor_time_tick w))
           = stdout w ++ ["Error updating time display: " +:+ exn_str e])
  /\ (current_playlist_files w = [] -> monitor_time_tick w = Done tt w).
Proof.
  intros Heng. destruct w. py_world. subst.
  split; [|split].
  - intros Hne t Ht. destruct current_playlist_files0; [done|].
    py_more. rewrite Ht. py_more. done.
  - intros Hne e He. destruct current_playlist_files0; [done|].
    py_more. rewrite He. py_more. done.
  - intros ->. reflexivity.
Qed.

Lemma time_tick_shows_time_witness :
  time_label (world_of (monitor_time_tick (watching [Paused]))) = format_time 0
  /\ engine_calls (world_of (monitor_time_tick (watching [Paused])))
     = engine_calls (watching [Paused]) ++ [GetTime].
Proof.
  destruct (time_tick_shows_time (watching [Paused])) as (H & _); [reflexivity|].
  apply H; [discriminate | reflexivity].
Defined.

(** X10. Starting a watcher twice starts it once: after
    [start_player_monitor] a second call changes nothing, and the same for
    [start_time_monitor]; without an engine neither starts a thread. *)
Theorem monitors_start_once (w : World) :
  (exists w1, start_player_monitor w = Done tt w1
              /\ start_player_monitor w1 = Done tt w1
              /\ (threads w1 = threads w \/ threads w1 = threads w ++ [MonitorPlayer])
              /\ (has_engine w = false -> w1 = w))
  /\ (exists w1, start_time_monitor w = Done tt w1
                 /\ start_time_monitor w1 = Done tt w1
                 /\ (threads w1 = threads w \/ threads w1 = threads w ++ [MonitorTime])
                 /\ (has_engine w = false -> w1 = w)).
Proof.
  destruct w. split.
  - py_more. destruct has_engine0, player_monitor_running0; py_more;
      eexists; (split; [reflexivity|]); py_more;
      (split; [reflexivity|]); (split; [by auto | done]).
  - py_more. destruct has_engine0, time_monitor_running0; py_more;
      eexists; (split; [reflexivity|]); py_more;
      (split; [reflexivity|]); (split; [by auto | done]).
Qed.

(* ===================================================================== *)
(** * [_load_current_playlist] and [refresh_playlists] *)
(* ===================================================================== *)

(** [_load_current_playlist] returns once a name is assigned; it loads the
    tracks of that name and never moves the index. *)
Lemma load_current_playlist_keeps (w : World) :
  current_playlist_name w <> Unset ->
  exists w',
    _load_current_playlist w = Done tt w'
    /\ current_index w' = current_index w
    /\ current_playlist_files w' = tracks_of (playlists w) (current_playlist_name w)
    /\ current_playlist_name w' = current_playlist_name w
    /\ playlists w' = playlists w
    /\ playlist_names w' = playlist_names w
    /\ (tracks_of (playlists w) (current_playlist_name w) = [] ->
        song_label w' = "No files in playlist"
        /\ engine_calls w' = engine_calls w /\ config w' = config w)
    /\ (forall k, k <> "song_index" -> config w' !! k = config w !! k)
    /\ threads w' = threads w /\ has_engine w' = has_engine w.
Proof.
  intros Hset. unfold _load_current_playlist, lookup_current_playlist.
  destruct w. py_run.
  destruct current_playlist_name0 as [| |s]; [done| |]; cbn [tracks_of]; py_run.
  { eexists. split; [reflexivity|]. py_world. done. }
  destruct (Dict.get playlists0 s) as [|f files] eqn:Hget; py_run.
  { eexists. split; [reflexivity|]. py_world. done. }
  match goal with
  | |- context [play_song_at_index ?i ?w0] =>
      destruct (decide (0 <= i < len (current_playlist_files w0))) as [Hin|Hout];
        [destruct (play_song_at_index_commits w0 i Hin) as (w' & -> & Hc)
        |rewrite (play_song_at_index_skips w0 i) by lia]
  end.
  - exists w'. split; [reflexivity|].
    destruct Hc as (Hi & Hcfg & _ & Hfiles & Hname & Hpl & Hnames & Heng & _ & _ & Hth & _).
    py_world. repeat split; try done.
    intros k Hk. rewrite Hcfg. by rewrite lookup_insert_ne.
  - eexists. split; [reflexivity|]. py_world. done.
Qed.

(** X11. [refresh_playlists] on a started player whose scan returns:
    the call returns with the new catalog and its sorted names; the current
    name is kept when the new catalog has it, else replaced by the first
    name, or by [None] when the catalog is empty; the tracks are those of
    that name, and the index is 0 whatever it was. When the scan raises,
    the call raises and changes nothing. *)
Theorem refresh_playlists_restarts (w : World) :
  current_playlist_name w <> Unset ->
  (forall found,
     scan_playlists (fs w) (music_root w) = Ok found ->
     exists w',
       refresh_playlists w = Done tt w'
       /\ playlists w' = found
       /\ playlist_names w' = PySort.sorted (Dict.keys found)
       /\ current_playlist_name w'
          = refreshed_name (current_playlist_name w) (PySort.sorted (Dict.keys found))
       /\ current_playlist_files w' = tracks_of found (current_playlist_name w')
       /\ current_index w' = 0
       /\ index_valid w')
  /\ (forall e,
        scan_playlists (fs w) (music_root w) = Err e ->
        refresh_playlists w = Raised e w).
Proof.
  intros Hset. split.
  - intros found Hscan.
    unfold refresh_playlists, lookup_current_playlist.
    destruct w. py_more. rewrite Hscan. py_more.
    assert (forall w0 : World,
              current_playlist_name w0 <> Unset -> current_index w0 = 0 ->
              exists w',
                _load_current_playlist w0 = Done tt w'
                /\ playlists w' = playlists w0
                /\ playlist_names w' = playlist_names w0
                /\ current_playlist_name w' = current_playlist_name w0
                /\ current_playlist_files w'
                   = tracks_of (playlists w0) (current_playlist_name w')
                /\ current_index w' = 0
                /\ index_valid w') as Hload.
    { intros w0 Hs Hz.
      destruct (load_current_playlist_keeps w0 Hs)
        as (w' & Hrun & Hi & Hf & Hn & Hp & Hns & Hempty & _).
      exists w'. rewrite Hn. repeat split; try done; [congruence|].
      unfold index_valid. rewrite Hf, Hi, Hz.
      destruct (tracks_of (playlists w0) (current_playlist_name w0)) eqn:Ht.
      - by apply Hempty.
      - unfold len. simpl. lia. }
    assert (forall (w0 : World) (P : World -> Prop),
              current_playlist_name w0 <> Unset -> current_index w0 = 0 ->
              (forall w', playlists w' = playlists w0 ->
                          playlist_names w' = playlist_names w0 ->
                          current_playlist_name w' = current_playlist_name w0 ->
                          current_playlist_files w'
                          = tracks_of (playlists w0) (current_playlist_name w0) ->
                          current_index w' = 0 -> index_valid w' -> P w') ->
              exists w', _load_current_playlist w0 = Done tt w' /\ P w') as Hthen.
    { intros w0 P Hs Hz HP.
      destruct (Hload w0 Hs Hz) as (w' & Hr & Hp & Hns & Hn & Hf & Hi & Hv).
      exists w'. split; [exact Hr|]. apply HP; try done. by rewrite <- Hn. }
    clear Hload.
    destruct (PySort.sorted (Dict.keys found)) as [|first rest] eqn:Hnames; py_more.
    + apply Hthen; py_world; [done | reflexivity|].
      intros w' Hp Hns Hn Hf Hi Hv. rewrite Hn. done.
    + destruct current_playlist_name0 as [| |s]; [done| |]; py_more.
      * apply Hthen; py_world; [done | reflexivity|].
        intros w' Hp Hns Hn Hf Hi Hv. rewrite Hn. done.
      * cbn [refreshed_name name_in].
        destruct (existsb (String.eqb s) (first :: rest)) eqn:Hin; py_more;
          (apply Hthen; py_world; [done | reflexivity|]);
          intros w' Hp Hns Hn Hf Hi Hv; rewrite Hn; done.
  - intros e Hscan. unfold refresh_playlists. destruct w. py_more.
    rewrite Hscan. reflexivity.
Qed.

Lemma refresh_playlists_restarts_witness :
  exists w',
    refresh_playlists
      (world_of (play_song_at_index 1 (started NoFile (steady_engine true Playing))))
    = Done tt w'
    /\ current_playlist_name w' = Name "B"
    /\ current_index w' = 0
    /\ index_valid w'.
Proof.
  destruct (refresh_playlists_restarts
              (world_of (play_song_at_index 1
                           (started NoFile (steady_engine true Playing)))))
    as [H _]; [discriminate|].
  destruct (H [("B", ["/m/B/a.MP3"; "/m/B/B.mp3"]);
               ("a", ["/m/a/c.ogg"]);
               ("a/live", ["/m/a/live/x.flac"])])
    as (w' & Hrun & _ & _ & Hn & _ & Hi & Hv); [reflexivity|].
  exists w'. repeat split; assumption.
Defined.

(* ===================================================================== *)
(** * A track that plays *)
(* ===================================================================== *)

(** X12. A track that plays. When the engine answers every call of the
    load-and-play script for the track at an index of the playlist,
    [play_song_at_index] returns with that index current; the label shows
    the title the engine reports for the track, or the file name when the
    engine reports none or an empty one; the button shows the pause glyph;
    and the engine has received exactly the script: open, parse, ask the
    title, set the media, play, set the volume of the configuration. *)
Theorem play_success_shows_title
    (w : World) (idx : Z) (file_path : string) (volume : PyVal)
    (reported : option string) :
  has_engine w = true ->
  0 <= idx ->
  current_playlist_files w !! Z.to_nat idx = Some file_path ->
  config w !! "volume" = Some volume ->
  engine_accepts (engine w) (engine_calls w) (play_script file_path volume) ->
  meta_title (engine w) (engine_calls w) file_path = Ok reported ->
  exists w',
    play_song_at_index idx w = Done tt w'
    /\ current_index w' = idx
    /\ song_label w' = shown_title reported file_path
    /\ play_btn w' = GlyphPause
    /\ engine_calls w' = engine_calls w ++ play_script file_path volume
    /\ config w' !! "song_index" = Some (VInt idx).
Proof.
  intros Heng Hidx Hp Hvol Ha Hm.
  rewrite (play_song_at_index_in_range w idx file_path Hidx Hp), Heng.
  cbv zeta.
  match goal with
  | |- context [engine_load_and_play ?p ?t ?w0] =>
      rewrite (engine_load_and_play_accepts p t w0 volume reported)
  end.
  - destruct w; destruct disk_error0 as [[?|?]|]; py_run; cbn [world_of]; py_world;
      eexists; (split; [reflexivity|]); py_world;
      repeat split; try done; apply lookup_insert_eq.
  - destruct w; destruct disk_error0 as [[?|?]|]; py_run; cbn [world_of]; py_world;
      (rewrite lookup_insert_ne; [exact Hvol | done]).
  - destruct w; destruct disk_error0 as [[?|?]|]; py_run; cbn [world_of]; py_world; exact Ha.
  - destruct w; destruct disk_error0 as [[?|?]|]; py_run; cbn [world_of]; py_world; exact Hm.
Qed.

Lemma play_success_shows_title_witness :
  exists w',
    play_song_at_index 1 (started NoFile (steady_engine true Playing)) = Done tt w'
    /\ current_index w' = 1
    /\ song_label w' = shown_title None "/m/B/B.mp3"
    /\ play_btn w' = GlyphPause
    /\ engine_calls w'
       = engine_calls (started NoFile (steady_engine true Playing))
         ++ play_script "/m/B/B.mp3" (VInt 80)
    /\ config w' !! "song_index" = Some (VInt 1).
Proof.
  apply (play_success_shows_title (started NoFile (steady_engine true Playing)) 1
           "/m/B/B.mp3" (VInt 80) None).
  - reflexivity.
  - lia.
  - reflexivity.
  - reflexivity.
  - repeat (eapply accepts_cons; [reflexivity|]). apply accepts_nil.
  - reflexivity.
Defined.

(* ===================================================================== *)
(** * Shuffle *)
(* ===================================================================== *)

(** X13. With shuffle on and a current playlist of length [L > 0],
    [next_song] and [prev_song] do the same thing: each returns with the
    index that [random.randrange(L)] picks, which is an index of the
    playlist, and 0 when the playlist has one track; neither avoids the
    index it started from. *)
Theorem shuffle_picks_an_index (w : World) (v : PyVal) (draw : Z) :
  config w !! "shuffle" = Some v ->
  truthy v = true ->
  current_playlist_files w <> [] ->
  prev_song draw w = next_song draw w
  /\ exists w',
       next_song draw w = Done tt w'
       /\ current_index w' = randrange draw (len (current_playlist_files w))
       /\ 0 <= current_index w' < len (current_playlist_files w)
       /\ (len (current_playlist_files w) = 1 -> current_index w' = 0)
       /\ current_playlist_files w' = current_playlist_files w.
Proof.
  intros Hsh Hv Hne.
  pose proof (playlist_length_pos w Hne) as HL.
  pose proof (Z.mod_pos_bound draw _ HL) as Hb.
  split.
  - unfold prev_song, next_song. destruct w. py_run.
    destruct current_playlist_files0; [done|]. py_run.
    rewrite Hsh. py_run. by rewrite Hv.
  - destruct (play_song_at_index_commits
                (set_current_index (randrange draw (len (current_playlist_files w))) w)
                (randrange draw (len (current_playlist_files w))))
      as (w' & Hrun & Hc); [destruct w; exact Hb|].
    exists w'. split.
    + rewrite <- Hrun. unfold next_song. destruct w. py_run.
      destruct current_playlist_files0; [done|]. py_run.
      rewrite Hsh. py_run. by rewrite Hv.
    + destruct Hc as (Hi & _ & _ & Hf & _). rewrite Hi.
      split; [reflexivity|]. split; [exact Hb|]. split.
      * intros H1. unfold randrange. rewrite H1. apply Z.mod_1_r.
      * rewrite Hf. by destruct w.
Qed.

Lemma shuffle_picks_an_index_witness :
  prev_song 12 (started NoFile broken_engine) = next_song 12 (started NoFile broken_engine)
  /\ exists w',
       next_song 12 (started NoFile broken_engine) = Done tt w'
       /\ current_index w'
          = randrange 12 (len (current_playlist_files (started NoFile broken_engine)))
       /\ 0 <= current_index w'
          < len (current_playlist_files (started NoFile broken_engine))
       /\ (len (current_playlist_files (started NoFile broken_engine)) = 1 ->
           current_index w' = 0)
       /\ current_playlist_files w'
          = current_playlist_files (started NoFile broken_engine).
Proof.
  apply (shuffle_picks_an_index (started NoFile broken_engine) (VBool true) 12).
  - reflexivity.
  - reflexivity.
  - discriminate.
Defined.

(* ===================================================================== *)
(** * What the catalog holds *)
(* ===================================================================== *)

(** The loop that collects the audio files is a filter followed by a map. *)
Lemma collect_audio_eq (fsys : FileSystem) (dir : string) (names : list string) :
  forall files,
    collect_audio (str_lower fsys) dir names files
    = files ++ map (PyStr.path_join dir) (List.filter (is_audio fsys) names).
Proof.
  induction names as [|f names IH]; intros files;
    cbn [collect_audio List.filter map].
  - by rewrite app_nil_r.
  - change (PyStr.endswith_any (str_lower fsys f) audio_extensions)
      with (is_audio fsys f).
    destruct (is_audio fsys f); rewrite IH; [|reflexivity].
    cbn [map]. by rewrite <- app_assoc.
Qed.

Lemma sorted_by_nonempty {A} (key : A -> string) (l : list A) :
  l <> [] -> PySort.sorted_by key l <> [].
Proof.
  intros Hl Hs. apply Hl. apply Permutation_nil.
  rewrite <- Hs. apply sorted_by_perm.
Qed.

Lemma is_empty_false {A} (l : list A) : is_empty l = false -> l <> [].
Proof. by destruct l. Qed.

Lemma set_keeps_catalog (fsys : FileSystem) (root : string) (d : Catalog)
    (k : string) (v : list string) :
  catalog_of_folders fsys root d ->
  playlist_of_folder fsys root k v ->
  catalog_of_folders fsys root (Dict.set d k v).
Proof.
  intros [Hnd Hall] Hkv. split.
  - rewrite keys_set. case_decide as Hin; [done|].
    apply NoDup_app. split; [done|]. split; [|apply NoDup_singleton].
    intros x Hx ->%list_elem_of_singleton. done.
  - clear Hnd. induction Hall as [|[k' v'] d Hk' Hall IH]; simpl.
    + constructor; [exact Hkv | constructor].
    + destruct (String.eqb k' k); constructor; done.
Qed.

Lemma folder_playlist (fsys : FileSystem) (dir : string) (names : list string) :
  isdir fsys dir = true ->
  listdir fsys dir = Ok names ->
  is_empty (collect_audio (str_lower fsys) dir names []) = false ->
  PySort.sorted_by (str_lower fsys) (collect_audio (str_lower fsys) dir names []) <> []
  /\ folder_tracks fsys dir
       (PySort.sorted_by (str_lower fsys) (collect_audio (str_lower fsys) dir names [])).
Proof.
  intros Hd Hl He. split.
  - by apply sorted_by_nonempty, is_empty_false.
  - split; [exact Hd|]. exists names. split; [exact Hl|].
    by rewrite collect_audio_eq.
Qed.

Lemma scan_top_catalog (fsys : FileSystem) (root : string) (entries : list string) :
  forall pl cat,
    catalog_of_folders fsys root pl ->
    scan_top fsys root entries pl = Ok cat ->
    catalog_of_folders fsys root cat.
Proof.
  induction entries as [|entry entries IH]; intros pl cat Hpl Hrun; simpl in Hrun.
  - by injection Hrun as <-.
  - destruct (isdir fsys (PyStr.path_join root entry)) eqn:Hd; [|by eapply IH].
    destruct (listdir fsys (PyStr.path_join root entry)) as [names|e] eqn:Hl;
      [|discriminate].
    simpl in Hrun.
    destruct (is_empty (collect_audio (str_lower fsys) (PyStr.path_join root entry) names [])) eqn:He;
      [by eapply IH|].
    eapply IH; [|exact Hrun].
    destruct (folder_playlist fsys _ names Hd Hl He) as [Hne Hft].
    apply set_keeps_catalog; [exact Hpl|]. split; [exact Hne | by left].
Qed.

Lemma scan_sub_catalog (fsys : FileSystem) (root entry : string)
    (subs : list string) :
  isdir fsys (PyStr.path_join root entry) = true ->
  forall pl cat,
    catalog_of_folders fsys root pl ->
    scan_sub fsys entry (PyStr.path_join root entry) subs pl = Ok cat ->
    catalog_of_folders fsys root cat.
Proof.
  intros Hentry.
  induction subs as [|sub subs IH]; intros pl cat Hpl Hrun; simpl in Hrun.
  - by injection Hrun as <-.
  - destruct (isdir fsys (PyStr.path_join (PyStr.path_join root entry) sub)) eqn:Hd;
      [|by eapply IH].
    destruct (listdir fsys (PyStr.path_join (PyStr.path_join root entry) sub))
      as [names|e] eqn:Hl; [|discriminate].
    simpl in Hrun.
    destruct (is_empty (collect_audio (str_lower fsys)
                          (PyStr.path_join (PyStr.path_join root entry) sub) names []))
      eqn:He; [by eapply IH|].
    eapply IH; [|exact Hrun].
    destruct (folder_playlist fsys _ names Hd Hl He) as [Hne Hft].
    apply set_keeps_catalog; [exact Hpl|]. split; [exact Hne|].
    right. by exists entry, sub.
Qed.

Lemma scan_nested_catalog (fsys : FileSystem) (root : string) (entries : list string) :
  forall pl cat,
    catalog_of_folders fsys root pl ->
    scan_nested fsys root entries pl = Ok cat ->
    catalog_of_folders fsys root cat.
Proof.
  induction entries as [|entry entries IH]; intros pl cat Hpl Hrun; simpl in Hrun.
  - by injection Hrun as <-.
  - destruct (isdir fsys (PyStr.path_join root entry)) eqn:Hd; [|by eapply IH].
    destruct (listdir fsys (PyStr.path_join root entry)) as [subs|e]; [|discriminate].
    simpl in Hrun.
    destruct (scan_sub fsys entry (PyStr.path_join root entry) (PySort.sorted subs) pl)
      as [pl'|e] eqn:Hsub; [|discriminate].
    simpl in Hrun. eapply IH; [|exact Hrun].
    by eapply scan_sub_catalog.
Qed.

(** X14. What the catalog holds. In every catalog that [scan_playlists]
    returns the names are distinct, no playlist is empty, and each playlist
    is that of a folder: its name is the name of a folder of the root, or
    [parent/child] for a folder one level below, and its tracks are the
    files of that folder whose lower-cased name ends in one of the six
    audio extensions, each joined to the folder, none left out and none
    twice, sorted by path up to case. *)
Theorem scan_playlists_catalog (fsys : FileSystem) (root : string) (cat : Catalog) :
  scan_playlists fsys root = Ok cat ->
  NoDup (Dict.keys cat)
  /\ Forall (fun kv => snd kv <> []) cat
  /\ Forall (fun kv => playlist_of_folder fsys root (fst kv) (snd kv)) cat.
Proof.
  intros Hrun.
  assert (catalog_of_folders fsys root cat) as [Hnd Hall].
  { unfold scan_playlists in Hrun.
    destruct (isdir fsys root); simpl in Hrun.
    2: { injection Hrun as <-. split; constructor. }
    destruct (listdir fsys root) as [entries|e]; [|discriminate].
    simpl in Hrun.
    destruct (scan_top fsys root (PySort.sorted entries) []) as [top|e] eqn:Htop;
      [|discriminate].
    simpl in Hrun.
    eapply scan_nested_catalog; [|exact Hrun].
    eapply scan_top_catalog; [|exact Htop]. split; constructor. }
  split; [exact Hnd|]. split; [|exact Hall].
  eapply Forall_impl; [exact Hall|]. intros kv H. apply H.
Qed.

Lemma scan_playlists_catalog_witness :
  NoDup (Dict.keys [("B", ["/m/B/a.MP3"; "/m/B/B.mp3"]);
                    ("a", ["/m/a/c.ogg"]);
                    ("a/live", ["/m/a/live/x.flac"])])
  /\ Forall (fun kv : string * list string => snd kv <> [])
       [("B", ["/m/B/a.MP3"; "/m/B/B.mp3"]);
        ("a", ["/m/a/c.ogg"]);
        ("a/live", ["/m/a/live/x.flac"])]
  /\ Forall (fun kv => playlist_of_folder sample_fs "/m" (fst kv) (snd kv))
       [("B", ["/m/B/a.MP3"; "/m/B/B.mp3"]);
        ("a", ["/m/a/c.ogg"]);
        ("a/live", ["/m/a/live/x.flac"])].
Proof.
  apply (scan_playlists_catalog sample_fs "/m"). reflexivity.
Defined.

(* ===================================================================== *)
(** * Which folders become playlists *)
(* ===================================================================== *)

Lemma prefix_elem_of {A} (l1 l2 : list A) (x : A) :
  l1 `prefix_of` l2 -> x ∈ l1 -> x ∈ l2.
Proof. intros [k ->] Hx. apply elem_of_app. by left. Qed.

Lemma key_after_set (d : Catalog) (k : string) (v : list string) :
  k ∈ Dict.keys (Dict.set d k v).
Proof.
  rewrite keys_set. case_decide; [done|]. apply elem_of_app. right. left.
Qed.

Lemma sorted_elem_of (l : list string) (x : string) :
  x ∈ l -> x ∈ PySort.sorted l.
Proof.
  intros Hx. apply list_elem_of_In. apply list_elem_of_In in Hx.
  eapply Permutation_in; [symmetry; apply sorted_by_perm | exact Hx].
Qed.

Lemma audio_collected (fsys : FileSystem) (dir : string) (names : list string)
    (f : string) :
  f ∈ names -> is_audio fsys f = true ->
  is_empty (collect_audio (str_lower fsys) dir names []) = false.
Proof.
  intros Hf Ha. rewrite collect_audio_eq. simpl.
  assert (f ∈ List.filter (is_audio fsys) names) as Hin.
  { apply list_elem_of_In, filter_In. split; [by apply list_elem_of_In | exact Ha]. }
  destruct (List.filter (is_audio fsys) names);
    [by apply elem_of_nil in Hin | reflexivity].
Qed.

Lemma scan_top_extends (fsys : FileSystem) (root : string) (entries : list string) :
  forall pl cat,
    scan_top fsys root entries pl = Ok cat ->
    Dict.keys pl `prefix_of` Dict.keys cat.
Proof.
  induction entries as [|entry entries IH]; intros pl cat Hrun; simpl in Hrun.
  - by injection Hrun as <-.
  - destruct (isdir fsys (PyStr.path_join root entry)); [|by apply IH].
    destruct (listdir fsys (PyStr.path_join root entry)) as [names|e]; [|discriminate].
    simpl in Hrun.
    destruct (is_empty (collect_audio (str_lower fsys) (PyStr.path_join root entry) names []));
      [by apply IH|].
    etransitivity; [apply keys_set_prefix | by apply IH].
Qed.

Lemma scan_top_registers (fsys : FileSystem) (root entry : string)
    (names : list string) (entries : list string) :
  isdir fsys (PyStr.path_join root entry) = true ->
  listdir fsys (PyStr.path_join root entry) = Ok names ->
  is_empty (collect_audio (str_lower fsys) (PyStr.path_join root entry) names []) = false ->
  forall pl cat,
    scan_top fsys root entries pl = Ok cat ->
    entry ∈ entries ->
    entry ∈ Dict.keys cat.
Proof.
  intros Hd Hl He.
  induction entries as [|e entries IH]; intros pl cat Hrun Hin.
  - by apply elem_of_nil in Hin.
  - apply elem_of_cons in Hin as [<-|Hin].
    + simpl in Hrun. rewrite Hd, Hl in Hrun. simpl in Hrun. rewrite He in Hrun.
      eapply prefix_elem_of; [by eapply scan_top_extends | apply key_after_set].
    + simpl in Hrun.
      destruct (isdir fsys (PyStr.path_join root e)); [|by eapply IH].
      destruct (listdir fsys (PyStr.path_join root e)) as [ns|err]; [|discriminate].
      simpl in Hrun.
      destruct (is_empty (collect_audio (str_lower fsys) (PyStr.path_join root e) ns []));
        by eapply IH.
Qed.

Lemma scan_sub_registers (fsys : FileSystem) (entry entry_path sub : string)
    (names : list string) (subs : list string) :
  isdir fsys (PyStr.path_join entry_path sub) = true ->
  listdir fsys (PyStr.path_join entry_path sub) = Ok names ->
  is_empty (collect_audio (str_lower fsys) (PyStr.path_join entry_path sub) names []) = false ->
  forall pl cat,
    scan_sub fsys entry entry_path subs pl = Ok cat ->
    sub ∈ subs ->
    (entry +:+ "/" +:+ sub) ∈ Dict.keys cat.
Proof.
  intros Hd Hl He.
  induction subs as [|s subs IH]; intros pl cat Hrun Hin.
  - by apply elem_of_nil in Hin.
  - apply elem_of_cons in Hin as [<-|Hin].
    + simpl in Hrun. rewrite Hd, Hl in Hrun. simpl in Hrun. rewrite He in Hrun.
      eapply prefix_elem_of; [by eapply scan_sub_extends | apply key_after_set].
    + simpl in Hrun.
      destruct (isdir fsys (PyStr.path_join entry_path s)); [|by eapply IH].
      destruct (listdir fsys (PyStr.path_join entry_path s)) as [ns|err];
        [|discriminate].
      simpl in Hrun.
      destruct (is_empty (collect_audio (str_lower fsys) (PyStr.path_join entry_path s) ns []));
        by eapply IH.
Qed.

Lemma scan_nested_registers (fsys : FileSystem) (root entry sub : string)
    (subs names : list string) (entries : list string) :
  isdir fsys (PyStr.path_join root entry) = true ->
  listdir fsys (PyStr.path_join root entry) = Ok subs ->
  sub ∈ subs ->
  isdir fsys (PyStr.path_join (PyStr.path_join root entry) sub) = true ->
  listdir fsys (PyStr.path_join (PyStr.path_join root entry) sub) = Ok names ->
  is_empty (collect_audio (str_lower fsys) (PyStr.path_join (PyStr.path_join root entry) sub) names [])
  = false ->
  forall pl cat,
    scan_nested fsys root entries pl = Ok cat ->
    entry ∈ entries ->
    (entry +:+ "/" +:+ sub) ∈ Dict.keys cat.
Proof.
  intros Hd Hl Hsub Hd' Hl' He.
  induction entries as [|e entries IH]; intros pl cat Hrun Hin.
  - by apply elem_of_nil in Hin.
  - apply elem_of_cons in Hin as [<-|Hin].
    + simpl in Hrun. rewrite Hd, Hl in Hrun. simpl in Hrun.
      destruct (scan_sub fsys entry (PyStr.path_join root entry) (PySort.sorted subs) pl)
        as [pl'|err] eqn:Hs; [|discriminate].
      simpl in Hrun.
      eapply prefix_elem_of; [by eapply scan_nested_extends|].
      eapply scan_sub_registers; eauto using sorted_elem_of.
    + simpl in Hrun.
      destruct (isdir fsys (PyStr.path_join root e)); [|by eapply IH].
      destruct (listdir fsys (PyStr.path_join root e)) as [ss|err]; [|discriminate].
      simpl in Hrun.
      destruct (scan_sub fsys e (PyStr.path_join root e) (PySort.sorted ss) pl)
        as [pl'|err] eqn:Hs; [|discriminate].
      simpl in Hrun. by eapply IH.
Qed.

(** X15. Which folders become playlists. When [scan_playlists] returns on
    a root directory, every folder of the root that holds a file with an
    audio extension is a name of the catalog, and so is [parent/child] for
    every folder [child] of a folder [parent] of the root that holds such a
    file: no folder with audio files, at either level, is left out. *)
Theorem scan_registers_folders
    (fsys : FileSystem) (root : string) (entries : list string) (cat : Catalog) :
  isdir fsys root = true ->
  listdir fsys root = Ok entries ->
  scan_playlists fsys root = Ok cat ->
  (forall entry names f,
     entry ∈ entries ->
     isdir fsys (PyStr.path_join root entry) = true ->
     listdir fsys (PyStr.path_join root entry) = Ok names ->
     f ∈ names -> is_audio fsys f = true ->
     entry ∈ Dict.keys cat)
  /\ (forall entry subs sub names f,
        entry ∈ entries ->
        isdir fsys (PyStr.path_join root entry) = true ->
        listdir fsys (PyStr.path_join root entry) = Ok subs ->
        sub ∈ subs ->
        isdir fsys (PyStr.path_join (PyStr.path_join root entry) sub) = true ->
        listdir fsys (PyStr.path_join (PyStr.path_join root entry) sub) = Ok names ->
        f ∈ names -> is_audio fsys f = true ->
        (entry +:+ "/" +:+ sub) ∈ Dict.keys cat).
Proof.
  intros Hroot Hlist Hrun. unfold scan_playlists in Hrun.
  rewrite Hroot, Hlist in Hrun. simpl in Hrun.
  destruct (scan_top fsys root (PySort.sorted entries) []) as [top|e] eqn:Htop;
    [|discriminate].
  simpl in Hrun. split.
  - intros entry names f Hin Hd Hl Hf Ha.
    eapply prefix_elem_of; [by eapply scan_nested_extends|].
    eapply scan_top_registers; eauto using sorted_elem_of, audio_collected.
  - intros entry subs sub names f Hin Hd Hl Hsub Hd' Hl' Hf Ha.
    eapply scan_nested_registers; eauto using sorted_elem_of, audio_collected.
Qed.

Lemma scan_registers_folders_witness :
  "B" ∈ Dict.keys [("B", ["/m/B/a.MP3"; "/m/B/B.mp3"]);
                   ("a", ["/m/a/c.ogg"]);
                   ("a/live", ["/m/a/live/x.flac"])]
  /\ ("a" +:+ "/" +:+ "live")
     ∈ Dict.keys [("B", ["/m/B/a.MP3"; "/m/B/B.mp3"]);
                  ("a", ["/m/a/c.ogg"]);
                  ("a/live", ["/m/a/live/x.flac"])].
Proof.
  destruct (scan_registers_folders sample_fs "/m" ["a"; "B"]
              [("B", ["/m/B/a.MP3"; "/m/B/B.mp3"]);
               ("a", ["/m/a/c.ogg"]);
               ("a/live", ["/m/a/live/x.flac"])]) as [Htop Hsub];
    [reflexivity | reflexivity | reflexivity |].
  split.
  - apply (Htop "B" ["B.mp3"; "notes.txt"; "a.MP3"] "B.mp3");
      [right; left | reflexivity | reflexivity | left | reflexivity].
  - apply (Hsub "a" ["live"; "c.ogg"] "live" ["x.flac"] "x.flac");
      [left | reflexivity | reflexivity | left | reflexivity | reflexivity
      | left | reflexivity].
Defined.

(* ===================================================================== *)
(** * What the start restores *)
(* ===================================================================== *)

Lemma monitors_keep_selection (w w' : World) :
  (start_player_monitor;; start_time_monitor) w = Done tt w' ->
  current_index w' = current_index w
  /\ current_playlist_files w' = current_playlist_files w
  /\ current_playlist_name w' = current_playlist_name w
  /\ playlists w' = playlists w
  /\ playlist_names w' = playlist_names w.
Proof.
  destruct w. py_more.
  destruct has_engine0, player_monitor_running0, time_monitor_running0; py_more;
    intros [= <-]; done.
Qed.

Lemma init_tail_keeps (w : World) (name : string) :
  current_playlist_name w = Name name ->
  forall w',
    (_load_current_playlist;; start_player_monitor;; start_time_monitor) w
    = Done tt w' ->
    current_index w' = current_index w
    /\ current_playlist_files w' = Dict.get (playlists w) name
    /\ current_playlist_name w' = Name name
    /\ playlists w' = playlists w
    /\ playlist_names w' = playlist_names w.
Proof.
  intros Hname w'.
  destruct (load_current_playlist_keeps w) as (w1 & Hrun & Hi & Hf & Hn & Hp & Hns & _);
    [by rewrite Hname|].
  unfold bind at 1. rewrite Hrun. intros Hm.
  apply monitors_keep_selection in Hm as (-> & -> & -> & -> & ->).
  rewrite Hname in *. done.
Qed.

(** X16. What the start restores. When [__init__] returns, the catalog is
    what the scan found and it has a name; the current playlist is the
    stored one when that is a name of the catalog, else the first name in
    sorted order; the tracks are those of that playlist; and a stored
    integer index is the current index unless it is at or beyond the number
    of tracks, when the index is 0. *)
Theorem startup_restores
    (fsys : FileSystem) (root : string) (file : ConfigFile) (err : option WriteError)
    (vlc : bool) (eng : Engine) (w : World) :
  __init__ (boot fsys root file err vlc eng) = Done tt w ->
  exists found first rest,
    scan_playlists fsys root = Ok found
    /\ PySort.sorted (Dict.keys found) = first :: rest
    /\ playlists w = found
    /\ playlist_names w = first :: rest
    /\ current_playlist_name w
       = Name (restored_name (default (VStr "") (loaded_config file !! "playlist"))
                 (first :: rest) first)
    /\ current_playlist_files w
       = Dict.get found
           (restored_name (default (VStr "") (loaded_config file !! "playlist"))
              (first :: rest) first)
    /\ (forall n,
          default (VInt 0) (loaded_config file !! "song_index") = VInt n ->
          current_index w
          = if n >=? len (current_playlist_files w) then 0 else n).
Proof.
  revert w.
  unfold __init__, load_config, setup_window, build_ui, boot, restored_name.
  unfold lookup_current_playlist, as_int.
  py_run. fold (loaded_config file). py_run.
  destruct (scan_playlists fsys root) as [found|e] eqn:Hscan; [|init_raised].
  py_run.
  destruct (PySort.sorted (Dict.keys found)) as [|first rest] eqn:Hnames; py_run.
  - destruct (default (VInt 0) (loaded_config file !! "song_index")) as [|b|n|s];
      try init_raised; py_run.
    all: match goal with
         | |- context [if ?c then _ else _] => destruct c
         end; py_run.
    all: destruct (loaded_config file !! "pinned") as [p|] eqn:Hp;
           [|init_raised]; py_run; rewrite ?Hp; py_run.
    all: destruct (truthy p); py_run.
    all: rewrite load_current_playlist_unset by reflexivity; init_raised.
  - destruct (default (VStr "") (loaded_config file !! "playlist")) as [|b|n|s];
      py_run;
      try match goal with
          | |- context [existsb ?f ?l] => destruct (existsb f l) eqn:Hex
          end; py_run.
    all: destruct (default (VInt 0) (loaded_config file !! "song_index"))
           as [|b'|n'|s'] eqn:Hread;
         [init_raised| destruct b' | |init_raised];
         py_run; cbn [Z.b2z].
    all: rewrite Z.geb_leb;
         match goal with
         | |- context [if ?a <=? ?b then _ else _] =>
             destruct (Z.leb_spec a b) as [Hge|Hlt]
         end; py_run.
    all: destruct (loaded_config file !! "pinned") as [p|] eqn:Hp;
           [|init_raised]; py_run; rewrite ?Hp; py_run.
    all: destruct (truthy p); py_run.
    all: intros w Hrun;
         match type of Hrun with
         | context [Name ?nm] =>
             eapply (init_tail_keeps _ nm) in Hrun; [|reflexivity]
         end; py_world;
         destruct Hrun as (Hi & Hf & Hn & Hpl & Hns);
         exists found, first, rest; rewrite ?Hex;
         (repeat split; try done);
         intros m [= <-]; rewrite Hf, Hi, Z.geb_leb;
         match goal with
         | |- context [if ?a <=? ?b then _ else _] => destruct (Z.leb_spec a b)
         end; first [reflexivity | lia].
Qed.

Lemma startup_restores_witness :
  exists found first rest,
    scan_playlists sample_fs "/m" = Ok found
    /\ PySort.sorted (Dict.keys found) = first :: rest
    /\ playlists (started NoFile broken_engine) = found
    /\ playlist_names (started NoFile broken_engine) = first :: rest
    /\ current_playlist_name (started NoFile broken_engine)
       = Name (restored_name (default (VStr "") (loaded_config NoFile !! "playlist"))
                 (first :: rest) first)
    /\ current_playlist_files (started NoFile broken_engine)
       = Dict.get found
           (restored_name (default (VStr "") (loaded_config NoFile !! "playlist"))
              (first :: rest) first)
    /\ (forall n,
          default (VInt 0) (loaded_config NoFile !! "song_index") = VInt n ->
          current_index (started NoFile broken_engine)
          = if n >=? len (current_playlist_files (started NoFile broken_engine))
            then 0 else n).
Proof.
  apply (startup_restores sample_fs "/m" NoFile None true broken_engine).
  vm_compute. reflexivity.
Defined.

Lemma toggle_play_effects_witness :
  returned (toggle_play (started NoFile (steady_engine true Playing))) = true
  /\ engine_calls (world_of (toggle_play (started NoFile (steady_engine true Playing))))
     = engine_calls (started NoFile (steady_engine true Playing)) ++ [IsPlaying; Pause]
  /\ play_btn (world_of (toggle_play (started NoFile (steady_engine true Playing))))
     = GlyphPlay.
Proof.
  destruct (toggle_play_effects (started NoFile (steady_engine true Playing)))
    as (_ & _ & _ & H & _).
  apply H; reflexivity.
Defined.

(* ===================================================================== *)
(** * A paused player *)
(* ===================================================================== *)

Lemma paused_tick (w : World) :
  (forall hist, engine w hist GetState = Ok Paused) ->
  exists w',
    monitor_player_tick w = Done tt w'
    /\ threads w' = threads w
    /\ engine w' = engine w
    /\ player_monitor_running w' = player_monitor_running w.
Proof.
  intros Hp. unfold monitor_player_tick, check_song_ended. destruct w. py_more.
  destruct has_engine0; py_more.
  2: { eexists. split; [reflexivity|]. py_world. done. }
  destruct (engine0 engine_calls0 IsPlaying) as [[|]|e1]; py_more;
    try (eexists; split; [reflexivity|]; py_world; done).
  destruct (engine0 _ IsPlaying) as [[|]|e2]; py_more;
    try (eexists; split; [reflexivity|]; py_world; done).
  destruct current_playlist_files0 as [|f files]; py_more;
    try (eexists; split; [reflexivity|]; py_world; done).
  rewrite Hp. py_more. cbn [VlcState_eqb]. py_more.
  eexists. split; [reflexivity|]. py_world. done.
Qed.

(** X17. A paused player is never advanced. While the engine reports the
    state [Paused] whenever it is asked for its state, any number of turns
    of the loop of [monitor_player] returns without starting a
    [next_song], whatever the engine answers to the other calls. *)
Theorem paused_never_advances (n : nat) (w : World) :
  (forall hist, engine w hist GetState = Ok Paused) ->
  returned (monitor_player n w) = true
  /\ threads (world_of (monitor_player n w)) = threads w.
Proof.
  revert w. induction n as [|n IH]; intros w Hp; [done|].
  cbn [monitor_player]. unfold bind, gets.
  destruct (player_monitor_running w); [|done].
  destruct (paused_tick w Hp) as (w' & -> & Hth & Heng & _).
  destruct (IH w') as [Hr Ht]; [intros hist; rewrite Heng; apply Hp|].
  split; [exact Hr | by rewrite Ht].
Qed.

Lemma paused_never_advances_witness :
  returned (monitor_player 5 (started NoFile (steady_engine false Paused))) = true
  /\ threads (world_of (monitor_player 5 (started NoFile (steady_engine false Paused))))
     = threads (started NoFile (steady_engine false Paused)).
Proof.
  apply (paused_never_advances 5 (started NoFile (steady_engine false Paused))).
  intros hist. reflexivity.
Defined.
